(** * playwright-ai-agent: cookie translation, screenshot capture and the
      sheet-driven orchestrator loop

    A shallow embedding of

    - [utils/playwright_utils.py]: [generate_screenshot_filename],
      [load_playwright_cookies], [take_playwright_screenshot];
    - [utils/gsheet_utils.py]: [read_urls], [is_url_processed],
      [update_metadata];
    - [utils/gdrive_utils.py]: [upload_file];
    - [main_playwright.py]: the processing loop of [main] and its summary.

    Python values are modelled as data (strings as code-point sequences,
    parsed JSON as an inductive type whose objects are finite maps), and the
    effectful code as a state-and-exception monad over an explicit [world]
    (sheet column, local files, browser pages, cookie jar, event trace).
    What the outside world answers to each call (a navigation that times
    out, an upload that fails, ...) is an input of the model. *)

From Stdlib Require Import ZArith NArith String Ascii List Lia Bool.
From Stdlib Require Import Floats.SpecFloat.
From stdpp Require Import base option list gmap sets.

Local Open Scope Z_scope.

(** ** Python strings *)

Module PyStr.

(** A Python [str] is a sequence of Unicode code points. *)
Definition pystr := list N.

(** ASCII literals of the source, written [lit "..."]. *)
Definition lit (s : string) : pystr :=
  List.map N_of_ascii (list_ascii_of_string s).

(** [str.isspace] for one code point: the code points Python treats as
    white space, which are the ones [str.strip()] removes. *)
Definition is_space (c : N) : bool :=
  ((0x09 <=? c) && (c <=? 0x0D) || (0x1C <=? c) && (c <=? 0x20)
   || (c =? 0x85) || (c =? 0xA0) || (c =? 0x1680)
   || (0x2000 <=? c) && (c <=? 0x200A)
   || (c =? 0x2028) || (c =? 0x2029) || (c =? 0x202F)
   || (c =? 0x205F) || (c =? 0x3000))%N.

Fixpoint lstrip (s : pystr) : pystr :=
  match s with
  | c :: s' => if is_space c then lstrip s' else s
  | [] => []
  end.

Definition rstrip (s : pystr) : pystr := rev (lstrip (rev s)).

(** [s.strip()] *)
Definition strip (s : pystr) : pystr := rstrip (lstrip s).

(** [s.startswith(p)] *)
Fixpoint startswith (s p : pystr) : bool :=
  match p, s with
  | [], _ => true
  | _ :: _, [] => false
  | a :: p', b :: s' => (a =? b)%N && startswith s' p'
  end.

(** [s.startswith((p1, p2, ...))] *)
Definition startswith_any (s : pystr) (ps : list pystr) : bool :=
  existsb (startswith s) ps.

(** [str.lower] for one code point.  The ASCII capitals are shifted; the
    only other code points whose lower-case form contains an ASCII code
    point are U+0130 (to "i" followed by U+0307) and U+212A (the Kelvin
    sign, to "k").  Every other code point is left in place: its real
    lower-case form is non-ASCII as well, so comparisons of [lower s] with an
    ASCII literal, the only use the source makes of it, are exact. *)
Definition lower_cp (c : N) : list N :=
  (if (0x41 <=? c) && (c <=? 0x5A) then [c + 32]
   else if c =? 0x130 then [0x69; 0x307]
   else if c =? 0x212A then [0x6B]
   else [c])%N.

(** [s.lower()] *)
Definition lower (s : pystr) : pystr := flat_map lower_cp s.

Definition eqb (s t : pystr) : bool := bool_decide (s = t).

End PyStr.
Import PyStr.

(** ** Parsed JSON, as [json.load] returns it *)

(** Objects become Python dicts (finite maps from strings), numbers become
    [int] or [float] (IEEE binary64). *)
#[warnings="-register-all"]
Inductive json : Type :=
| JNull
| JBool (b : bool)
| JInt (z : Z)
| JFloat (f : spec_float)
| JStr (s : pystr)
| JArr (l : list json)
| JObj (d : gmap pystr json).

(** Python truth value of a parsed JSON value ([not v] is its negation). *)
Definition truthy (v : json) : bool :=
  match v with
  | JNull => false
  | JBool b => b
  | JInt z => negb (z =? 0)
  | JFloat (S754_zero _) => false
  | JFloat _ => true
  | JStr s => match s with [] => false | _ => true end
  | JArr l => match l with [] => false | _ => true end
  | JObj d => negb (Nat.eqb (size d) 0)
  end.

(** [v is None] *)
Definition is_None (v : json) : bool :=
  match v with JNull => true | _ => false end.

(** [d.get(k)]: [None] (JSON null) when the key is absent. *)
Definition dict_get (d : gmap pystr json) (k : pystr) : json :=
  default JNull (d !! k).

(** [d.get(k, dflt)] *)
Definition dict_get_default (d : gmap pystr json) (k : pystr) (dflt : json) : json :=
  default dflt (d !! k).

(** ** Exceptions *)

Inductive exn : Type :=
| PlaywrightTimeoutError   (* playwright.sync_api.TimeoutError *)
| PlaywrightError          (* any other playwright.sync_api.Error *)
| AttributeError
| TypeError
| KeyError
| ValueError
| OverflowError
| UnboundLocalError
| OSError
| FileNotFoundError        (* a subclass of OSError *)
| HttpError.               (* googleapiclient.errors.HttpError *)

Definition is_timeout (e : exn) : bool :=
  match e with PlaywrightTimeoutError => true | _ => false end.

Definition is_OSError (e : exn) : bool :=
  match e with OSError | FileNotFoundError => true | _ => false end.

Global Instance exn_eq_dec : EqDecision exn.
Proof. solve_decision. Defined.

(** ** The world the program acts on *)

Inductive same_site : Type := Strict | Lax | SameSiteNone.   (* 'Strict', 'Lax', 'None' *)

(** A cookie in the form [BrowserContext.add_cookies] takes (the dict [pc]
    of [load_playwright_cookies]); ['expires'] is an optional key. *)
Record pw_cookie : Type := {
  name : json;
  value : json;
  domain : json;
  path : json;
  httpOnly : json;
  secure : json;
  sameSite : same_site;
  expires : option spec_float
}.

Inductive level : Type := INFO | WARNING | ERROR | CRITICAL.

(** The log lines the model keeps: every [logger.warning], [logger.error]
    and [logger.critical] of the modelled functions, and the few
    [logger.info] lines that mark progress.  Console [print]s repeat them
    and are left out. *)
Inductive msg : Type :=
| CookiesFileNotFound
| InvalidCookiesFormat
| SkippingCookie                         (* "Skipping cookie with missing name or value" *)
| SameSiteDefaultedToLax                 (* "has sameSite=null and is not Secure" *)
| LoadedCookies (n : nat)
| NoValidCookies
| ErrorLoadingCookies (e : exn)
| ConsentNotFoundOrTimedOut
| CouldNotClickConsent (e : exn)
| CouldNotGetDimensions (e : exn)
| PlaywrightTimedOut
| PlaywrightErrorOccurred (e : exn)
| SavedErrorScreenshot
| CouldNotTakeErrorScreenshot (e : exn)
| ClosedPage
| ErrorCheckingProcessed (e : exn)
| ErrorUpdatingSheet (e : exn)
| FileToUploadNotFound
| ErrorUploading (e : exn)
| ProcessingURL (current_loop_index total_urls : nat)
| InvalidOrEmptyURL
| SkippingAlreadyProcessed
| ErrorDuringUploadOrUpdate (e : exn)
| CleanedUpLocalScreenshot
| ErrorRemovingLocalScreenshot (e : exn)
| FailedToCapture
| WaitingBeforeNextURL
| CriticalErrorInLoop (e : exn)
| InvalidRange
| Summary (total_urls successful skipped failed : nat).

(** What the program does to the outside, in the order it does it. *)
Inductive event : Type :=
| EvLog (lv : level) (m : msg)
| EvAddCookies (pcs : list pw_cookie)              (* context.add_cookies *)
| EvSheetGet (row : Z)                             (* values().get on C<row> *)
| EvSheetUpdate (row : Z) (v : pystr)              (* values().update on C<row> *)
| EvNewPage (h : nat)                              (* context.new_page *)
| EvGoto (h : nat) (url : pystr)
| EvClick (h : nat)
| EvWaitForTimeout (h : nat)
| EvEvaluate (h : nat)
| EvScreenshot (h : nat) (p : pystr)
| EvClose (h : nat)
| EvUpload (p : pystr)
| EvRemove (p : pystr)
| EvSleep.

(** The three counters of [main].  They are kept in the state because the
    summary reads them in a [finally], after an exception may have unwound
    the loop. *)
Record counters : Type := {
  successful_screenshots : nat;
  failed_screenshots : nat;
  skipped_urls : nat
}.

Record world : Type := {
  jar : list pw_cookie;        (* cookies held by the browser context *)
  sheet : gmap Z pystr;        (* column C of the sheet: row number to cell text *)
  files : gset pystr;          (* paths that exist on the local disk *)
  pages : list bool;           (* pages of the context by handle; [true] = closed *)
  tally : counters;            (* the counters of [main] *)
  events : list event          (* most recent first *)
}.

Definition with_jar (j : list pw_cookie) (w : world) : world :=
  {| jar := j; sheet := sheet w; files := files w; pages := pages w;
     tally := tally w; events := events w |}.
Definition with_sheet (s : gmap Z pystr) (w : world) : world :=
  {| jar := jar w; sheet := s; files := files w; pages := pages w;
     tally := tally w; events := events w |}.
Definition with_files (f : gset pystr) (w : world) : world :=
  {| jar := jar w; sheet := sheet w; files := f; pages := pages w;
     tally := tally w; events := events w |}.
Definition with_pages (p : list bool) (w : world) : world :=
  {| jar := jar w; sheet := sheet w; files := files w; pages := p;
     tally := tally w; events := events w |}.
Definition with_tally (c : counters) (w : world) : world :=
  {| jar := jar w; sheet := sheet w; files := files w; pages := pages w;
     tally := c; events := events w |}.
Definition with_events (e : list event) (w : world) : world :=
  {| jar := jar w; sheet := sheet w; files := files w; pages := pages w;
     tally := tally w; events := e |}.

(** The events in the order they happened. *)
Definition trace (w : world) : list event := rev (events w).

(** ** The monad: state passing with Python exceptions *)

Definition M (A : Type) : Type := world -> (exn + A) * world.

Global Instance M_ret : MRet M := fun A a w => (inr a, w).
Global Instance M_bind : MBind M := fun A B f m w =>
  match m w with
  | (inr a, w') => f a w'
  | (inl e, w') => (inl e, w')
  end.

Definition raise {A} (e : exn) : M A := fun w => (inl e, w).

(** [try: body  except <those e with handler e = Some h>: h] *)
Definition try_except {A} (body : M A) (handler : exn -> option (M A)) : M A :=
  fun w =>
    match body w with
    | (inr a, w') => (inr a, w')
    | (inl e, w') =>
        match handler e with
        | Some h => h w'
        | None => (inl e, w')
        end
    end.

(** [try: body  finally: fin]: [fin] runs on every exit of [body]; an
    exception of [fin] replaces the outcome of [body]. *)
Definition try_finally {A} (body : M A) (fin : M unit) : M A :=
  fun w =>
    match body w with
    | (r, w') =>
        match fin w' with
        | (inr _, w'') => (r, w'')
        | (inl e, w'') => (inl e, w'')
        end
    end.

(** [except Exception] catches every exception of the model. *)
Definition except_Exception {A} (h : exn -> M A) : exn -> option (M A) :=
  fun e => Some (h e).

(** Reading and changing the state. *)
Definition gets {A} (f : world -> A) : M A := fun w => (inr (f w), w).
Definition modify (f : world -> world) : M unit := fun w => (inr tt, f w).

Definition emit (ev : event) : M unit :=
  modify (fun w => with_events (ev :: events w) w).

Definition log (lv : level) (m : msg) : M unit := emit (EvLog lv m).

(** An exception or a value supplied by the outside world. *)
Definition answer {A} (r : exn + A) : M A := fun w => (r, w).

(** ** [load_playwright_cookies] (utils/playwright_utils.py) *)

(** What [json.load] finds at [cookies_path]. *)
Inductive cookies_file : Type :=
| NoSuchFile                  (* os.path.exists(cookies_path) is False *)
| NotJson (e : exn)           (* open or json.load raises *)
| Parsed (selenium_cookies : json).

Section Translator.

(** [float(s)] for a string: Python's float-literal parser, [None] where it
    raises [ValueError].  It belongs to the interpreter, not to the
    repository. *)
Variable float_of_str : pystr -> option spec_float.

(** [float(n)] for an int: round to nearest, ties to even; values that round
    beyond the largest binary64 raise [OverflowError]. *)
Definition float_of_int (n : Z) : exn + spec_float :=
  match binary_normalize 53 1024 n 0 false with
  | S754_infinity _ => inl OverflowError
  | f => inr f
  end.

(** [float(v)] *)
Definition py_float (v : json) : exn + spec_float :=
  match v with
  | JNull => inl TypeError
  | JBool b => float_of_int (if b then 1 else 0)
  | JInt n => float_of_int n
  | JFloat f => inr f
  | JStr s => match float_of_str s with Some f => inr f | None => inl ValueError end
  | JArr _ | JObj _ => inl TypeError
  end.

(** Lines 45-58: the value given to [valid_samesite_for_playwright],
    with the warning of line 58. *)
Definition valid_samesite_for_playwright (sc : gmap pystr json) : M same_site :=
  let samesite_value := dict_get sc (lit "sameSite") in
  match samesite_value with
  | JStr s =>
      let samesite_lower := lower s in
      if eqb samesite_lower (lit "strict") then mret Strict
      else if eqb samesite_lower (lit "lax") then mret Lax
      else if eqb samesite_lower (lit "none") then mret SameSiteNone
      else mret Lax
  | JNull =>
      if truthy (dict_get_default sc (lit "secure") (JBool false))
      then mret SameSiteNone
      else log WARNING SameSiteDefaultedToLax;; mret Lax
  | _ => mret Lax
  end.

(** Line 41: [not sc.get('name') or sc.get('value') is None] *)
Definition missing_name_or_value (sc : gmap pystr json) : bool :=
  negb (truthy (dict_get sc (lit "name"))) || is_None (dict_get sc (lit "value")).

(** Lines 72-73: [pc['domain']] with its leading dot removed.  A domain
    that is truthy but not a string has no [startswith]. *)
Definition normalized_domain (d : json) : exn + json :=
  if truthy d then
    match d with
    | JStr s => if startswith s (lit ".") then inr (JStr (tail s)) else inr d
    | _ => inl AttributeError
    end
  else inr d.

(** The body of the [for sc in selenium_cookies] loop, lines 41-75;
    [None] is the [continue] of line 43. *)
Definition convert_cookie (sc : json) : M (option pw_cookie) :=
  match sc with
  | JObj sc =>
      if missing_name_or_value sc
      then log WARNING SkippingCookie;; mret None
      else
        ss ← valid_samesite_for_playwright sc;
        expires_ ←
          (if negb (is_None (dict_get sc (lit "expirationDate")))
           then f ← answer (py_float (dict_get sc (lit "expirationDate"))); mret (Some f)
           else mret None);
        domain_ ← answer (normalized_domain (dict_get sc (lit "domain")));
        mret (Some {| name := dict_get sc (lit "name");
                      value := dict_get sc (lit "value");
                      domain := domain_;
                      path := dict_get_default sc (lit "path") (JStr (lit "/"));
                      httpOnly := dict_get_default sc (lit "httpOnly") (JBool false);
                      secure := dict_get_default sc (lit "secure") (JBool false);
                      sameSite := ss;
                      expires := expires_ |})
  | _ => raise AttributeError        (* sc.get on something that is no dict *)
  end.

Fixpoint convert_cookies (selenium_cookies : list json) (playwright_cookies : list pw_cookie)
  : M (list pw_cookie) :=
  match selenium_cookies with
  | [] => mret playwright_cookies
  | sc :: rest =>
      r ← convert_cookie sc;
      convert_cookies rest
        (match r with Some pc => playwright_cookies ++ [pc] | None => playwright_cookies end)
  end.

(** [context.add_cookies(pcs)]; the browser may refuse the cookies, in which
    case the call raises and the jar is unchanged. *)
Definition add_cookies (refused : option exn) (pcs : list pw_cookie) : M unit :=
  emit (EvAddCookies pcs);;
  match refused with
  | Some e => raise e
  | None => modify (fun w => with_jar (jar w ++ pcs) w)
  end.

Definition load_playwright_cookies (file : cookies_file) (refused : option exn) : M unit :=
  try_except
    (match file with
     | NoSuchFile => log WARNING CookiesFileNotFound
     | NotJson e => raise e
     | Parsed (JArr selenium_cookies) =>
         playwright_cookies ← convert_cookies selenium_cookies [];
         match playwright_cookies with
         | _ :: _ =>
             add_cookies refused playwright_cookies;;
             log INFO (LoadedCookies (length playwright_cookies))
         | [] => log INFO NoValidCookies
         end
     | Parsed _ => log ERROR InvalidCookiesFormat
     end)
    (except_Exception (fun e => log ERROR (ErrorLoadingCookies e))).

(** The translator's output: the lists handed to [add_cookies]. *)
Definition cookies_handed_over (w : world) : list (list pw_cookie) :=
  omap (fun ev => match ev with EvAddCookies pcs => Some pcs | _ => None end) (trace w).

End Translator.

Definition no_counts : counters :=
  {| successful_screenshots := 0; failed_screenshots := 0; skipped_urls := 0 |}.

Definition empty_world : world :=
  {| jar := []; sheet := ∅; files := ∅; pages := []; tally := no_counts; events := [] |}.

(** ** Paths ([os.path] on a POSIX system) *)

Module OsPath.

Definition sep : N := 47%N.   (* "/" *)

Definition is_sep (c : N) : bool := (c =? sep)%N.

(** The longest prefix without a separator, and what follows the leading
    separators. *)
Fixpoint upto_sep (p : pystr) : pystr :=
  match p with
  | c :: p' => if is_sep c then [] else c :: upto_sep p'
  | [] => []
  end.

Fixpoint skip_seps (p : pystr) : pystr :=
  match p with
  | c :: p' => if is_sep c then skip_seps p' else p
  | [] => []
  end.

(** [p[i:]] for [i = p.rfind('/') + 1] *)
Definition basename (p : pystr) : pystr := rev (upto_sep (rev p)).

(** [p[:i]], without its trailing slashes unless it consists of slashes *)
Definition dirname (p : pystr) : pystr :=
  let head := take (length p - length (basename p))%nat p in
  if forallb is_sep head then head
  else rev (skip_seps (rev head)).

(** [os.path.join(a, b)] *)
Definition join (a b : pystr) : pystr :=
  if startswith b [sep] then b
  else match a with
       | [] => b
       | _ => if is_sep (List.last a 0%N) then a ++ b else a ++ sep :: b
       end.

End OsPath.

(** [os.path.exists(p)] *)
Definition path_exists (p : pystr) : M bool :=
  gets (fun w => bool_decide (p ∈ files w)).

(** [os.remove(p)]; the only exceptions it raises are [OSError]s. *)
Definition os_remove (fails : bool) (p : pystr) : M unit :=
  emit (EvRemove p);;
  if fails then raise OSError
  else modify (fun w => with_files (files w ∖ {[p]}) w).

(** ** [take_playwright_screenshot] (utils/playwright_utils.py) *)

(** What a call on a page does. *)
Inductive outcome : Type :=
| Done
| Raises (e : exn)      (* [Raises PlaywrightTimeoutError] is a time-out *)
| PageCloses.           (* the page is gone (crash, closed by the site): the
                           call raises a Playwright error and the page is closed *)

(** The answers of the browser during one capture. *)
Record capture_env : Type := {
  new_page : option exn;        (* [Some e]: context.new_page() raises e *)
  goto : outcome;
  click : outcome;
  wait_for_timeout : outcome;
  evaluate : outcome;           (* includes reading the two dimensions *)
  screenshot : outcome;         (* page.screenshot(path=output_path, ...) *)
  error_screenshot : outcome    (* page.screenshot(path=error_screenshot_path, ...) *)
}.

(** [page.is_closed()] *)
Definition is_closed (h : nat) : M bool :=
  gets (fun w => bool_decide (pages w !! h = Some true)).

(** A call on page [h], with the outcome the environment gives it. *)
Definition page_call (ev : event) (o : outcome) (h : nat) : M unit :=
  emit ev;;
  match o with
  | Done => mret tt
  | Raises e => raise e
  | PageCloses =>
      modify (fun w => with_pages (<[h:=true]> (pages w)) w);;
      raise PlaywrightError
  end.

(** [context.new_page()]: the new handle is the next index. *)
Definition context_new_page (fails : option exn) : M nat :=
  h ← gets (fun w => length (pages w));
  emit (EvNewPage h);;
  match fails with
  | Some e => raise e
  | None => modify (fun w => with_pages (pages w ++ [false]) w);; mret h
  end.

(** [page.screenshot(path=p, full_page=True)]: on success the file exists. *)
Definition page_screenshot (o : outcome) (h : nat) (p : pystr) : M unit :=
  page_call (EvScreenshot h p) o h;;
  modify (fun w => with_files ({[p]} ∪ files w) w).

(** [page.close()] *)
Definition page_close (h : nat) : M unit :=
  emit (EvClose h);;
  modify (fun w => with_pages (<[h:=true]> (pages w)) w).

Definition error_screenshot_path (output_path : pystr) : pystr :=
  OsPath.join (OsPath.dirname output_path) (lit "error_" ++ OsPath.basename output_path).

Section Capture.

Variable env : capture_env.
Variables url output_path : pystr.

(** Lines 97-123: the [try] body after [page = context_to_use.new_page()]. *)
Definition navigate_and_capture (page : nat) : M bool :=
  page_call (EvGoto page url) (goto env) page;;
  try_except
    (page_call (EvClick page) (click env) page;;
     page_call (EvWaitForTimeout page) (wait_for_timeout env) page)
    (fun e => Some (if is_timeout e
                    then log WARNING ConsentNotFoundOrTimedOut
                    else log WARNING (CouldNotClickConsent e)));;
  try_except
    (page_call (EvEvaluate page) (evaluate env) page)
    (except_Exception (fun e => log WARNING (CouldNotGetDimensions e)));;
  page_screenshot (screenshot env) page output_path;;
  mret true.

(** Lines 126-132 and 135-141: the diagnostic screenshot of a handler. *)
Definition save_error_screenshot (page : option nat) : M unit :=
  try_except
    (match page with
     | Some h =>
         closed ← is_closed h;
         if negb (closed : bool)
         then page_screenshot (error_screenshot env) h (error_screenshot_path output_path)
         else mret tt
     | None => mret tt
     end;;
     log INFO SavedErrorScreenshot)
    (except_Exception (fun e => log ERROR (CouldNotTakeErrorScreenshot e))).

(** The two [except] clauses, lines 124-141. *)
Definition on_error (page : option nat) (e : exn) : option (M bool) :=
  Some (log ERROR (if is_timeout e then PlaywrightTimedOut else PlaywrightErrorOccurred e);;
        save_error_screenshot page;;
        mret false).

(** The [finally] clause, lines 142-145. *)
Definition close_page (page : option nat) : M unit :=
  match page with
  | Some h =>
      closed ← is_closed h;
      if negb (closed : bool) then page_close h;; log INFO ClosedPage else mret tt
  | None => mret tt
  end.

(** The local [page] is [None] until [new_page] has returned: the handlers
    and the [finally] see a handle exactly when it did. *)
Definition take_playwright_screenshot : M bool :=
  fun w =>
    match context_new_page (new_page env) w with
    | (inl e, w') =>
        try_finally (try_except (raise e) (on_error None)) (close_page None) w'
    | (inr page, w') =>
        try_finally (try_except (navigate_and_capture page) (on_error (Some page)))
                    (close_page (Some page)) w'
    end.

End Capture.

(** ** The sheet (utils/gsheet_utils.py) and the drive (utils/gdrive_utils.py) *)

(** [service.spreadsheets().values().get(range=C<row>).execute().get('values', [])]:
    an empty cell has no ['values']. *)
Definition sheet_values_get (fails : option exn) (row : Z) : M (list (list pystr)) :=
  emit (EvSheetGet row);;
  match fails with
  | Some e => raise e
  | None => gets (fun w => match sheet w !! row with Some v => [[v]] | None => [] end)
  end.

(** [read_urls]: the first cell of every row that has one with something
    other than white space in it. *)
Definition read_urls (values : list (list pystr)) : list pystr :=
  omap (fun row => match row with
                   | c :: _ => match strip c with [] => None | _ => Some c end
                   | [] => None
                   end) values.

Definition is_url_processed (fails : option exn) (sheet_row_number : Z) : M bool :=
  try_except
    (values ← sheet_values_get fails sheet_row_number;
     match values with
     | (v :: _) :: _ =>
         if startswith (strip v) (lit "https://drive.google.com") then mret true else mret false
     | _ => mret false
     end)
    (except_Exception (fun e => log ERROR (ErrorCheckingProcessed e);; mret false)).

(** [update_metadata] on the single cell C<row>. *)
Definition update_metadata (fails : option exn) (row : Z) (v : pystr) : M unit :=
  try_except
    (emit (EvSheetUpdate row v);;
     match fails with
     | Some e => raise e
     | None => modify (fun w => with_sheet (<[row:=v]> (sheet w)) w)
     end)
    (except_Exception (fun e => log ERROR (ErrorUpdatingSheet e);; raise e)).

(** [upload_file]: [api] is what the Drive call answers, the file id and
    the web link or an exception. *)
Definition upload_file (api : exn + (pystr * pystr)) (file_path : pystr) : M (pystr * pystr) :=
  try_except
    (present ← path_exists file_path;
     if negb (present : bool)
     then log ERROR FileToUploadNotFound;; raise FileNotFoundError
     else emit (EvUpload file_path);; answer api)
    (except_Exception (fun e => log ERROR (ErrorUploading e);; raise e)).

(** ** The loop of [main] (main_playwright.py) *)

(** What the outside answers while one row is processed. *)
Record row_env : Type := {
  marker_read : option exn;                        (* the read of C<row> raises *)
  generate_screenshot_filename : exn + pystr;      (* urlparse raises ValueError on
                                                      some URLs, e.g. "http://[" *)
  capture : capture_env;
  upload : exn + (pystr * pystr);
  update : option exn;
  remove_fails : bool
}.

Definition incr_successful (c : counters) : counters :=
  {| successful_screenshots := S (successful_screenshots c);
     failed_screenshots := failed_screenshots c;
     skipped_urls := skipped_urls c |}.

Definition incr_failed (c : counters) : counters :=
  {| successful_screenshots := successful_screenshots c;
     failed_screenshots := S (failed_screenshots c);
     skipped_urls := skipped_urls c |}.

Definition incr_skipped (c : counters) : counters :=
  {| successful_screenshots := successful_screenshots c;
     failed_screenshots := failed_screenshots c;
     skipped_urls := S (skipped_urls c) |}.

(** [successful_screenshots += 1], [failed_screenshots += 1], [skipped_urls += 1] *)
Definition count_success : M unit :=
  modify (fun w => with_tally (incr_successful (tally w)) w).

Definition count_failed : M unit :=
  modify (fun w => with_tally (incr_failed (tally w)) w).

Definition count_skipped : M unit :=
  modify (fun w => with_tally (incr_skipped (tally w)) w).

(** Line 141: [not url or not url.strip().startswith(('http://', 'https://'))] *)
Definition invalid_url (url : pystr) : bool :=
  negb (truthy (JStr url))
  || negb (startswith_any (strip url) [lit "http://"; lit "https://"]).

Section Loop.

Variable SCREENSHOTS_DIR : pystr.
Variable start_row_in_sheet : Z.
Variable total_urls : nat.

(** Lines 162-193: what follows the capture. *)
Definition after_capture (env : row_env) (current_sheet_row : Z)
    (screenshot_path : pystr) (screenshot_success : bool) : M unit :=
  if screenshot_success then
    try_finally
      (try_except
         (r ← upload_file (upload env) screenshot_path;
          update_metadata (update env) current_sheet_row (snd r);;
          count_success)
         (except_Exception (fun e => log ERROR (ErrorDuringUploadOrUpdate e);; count_failed)))
      (present ← path_exists screenshot_path;
       if (present : bool) then
         try_except
           (os_remove (remove_fails env) screenshot_path;;
            log INFO CleanedUpLocalScreenshot)
           (fun e => if is_OSError e
                     then Some (log ERROR (ErrorRemovingLocalScreenshot e))
                     else None)
       else mret tt)
  else
    log ERROR FailedToCapture;; count_failed.

(** Lines 134-198: one iteration for the [i]-th URL (from 0).  The two
    [continue]s are the branches that end without reaching the delay. *)
Definition process_row (i : nat) (url : pystr) (env : row_env) : M unit :=
  let current_loop_index := S i in
  let current_sheet_row := start_row_in_sheet + Z.of_nat i in
  log INFO (ProcessingURL current_loop_index total_urls);;
  if invalid_url url then
    log ERROR InvalidOrEmptyURL;; count_failed
  else
    processed ← is_url_processed (marker_read env) current_sheet_row;
    if (processed : bool) then
      log INFO SkippingAlreadyProcessed;; count_skipped
    else
      screenshot_filename ← answer (generate_screenshot_filename env);
      let screenshot_path := OsPath.join SCREENSHOTS_DIR screenshot_filename in
      screenshot_success ← take_playwright_screenshot (capture env) url screenshot_path;
      after_capture env current_sheet_row screenshot_path screenshot_success;;
      if (current_loop_index <? total_urls)%nat
      then log INFO WaitingBeforeNextURL;; emit EvSleep
      else mret tt.

(** [for i, url in enumerate(urls_to_process)], from index [i] on. *)
Fixpoint process_rows (i : nat) (rows : list (pystr * row_env)) : M unit :=
  match rows with
  | [] => mret tt
  | (url, env) :: rest => process_row i url env;; process_rows (S i) rest
  end.

End Loop.

(** Lines 105-227 of [main], from the URLs read off the sheet: the loop
    inside the outer [try], the catch-all [except] and the summary of the
    [finally].  [range_match] is what the regular expression extracts from
    URL_RANGE (the start row), [None] when it does not match.  The counters
    and [total_urls] are bound only after the emptiness test, so the
    summary of a run without URLs reads unbound locals. *)
Definition main (SCREENSHOTS_DIR : pystr) (range_match : option Z)
    (rows : list (pystr * row_env)) : M unit :=
  let urls_to_process := rows.*1 in
  let total_urls := length urls_to_process in
  try_finally
    (try_except
       (match urls_to_process with
        | [] => mret tt                                   (* line 111 *)
        | _ :: _ =>
            modify (with_tally no_counts);;
            match range_match with
            | None => log CRITICAL InvalidRange           (* line 127 *)
            | Some start_row_in_sheet =>
                process_rows SCREENSHOTS_DIR start_row_in_sheet total_urls 0 rows
            end
        end)
       (except_Exception (fun e => log CRITICAL (CriticalErrorInLoop e))))
    (match urls_to_process with
     | [] => raise UnboundLocalError
     | _ :: _ =>
         c ← gets tally;
         log INFO (Summary total_urls (successful_screenshots c)
                           (skipped_urls c) (failed_screenshots c))
     end).

(** The summary line a run ends with, if it has one. *)
Definition summary_of (w : world) : option (nat * nat * nat * nat) :=
  match events w with
  | EvLog INFO (Summary t s k f) :: _ => Some (t, s, k, f)
  | _ => None
  end.

(** ** Vocabulary of the statements *)

(** The capture reports success exactly when the page opened, the
    navigation and the screenshot all succeeded. *)
Definition captured (env : capture_env) : bool :=
  match new_page env, goto env, screenshot env with
  | None, Done, Done => true
  | _, _, _ => false
  end.

(** The same browser answers, with other ones for the consent click and
    the wait that follows it. *)
Definition with_consent (c wt : outcome) (env : capture_env) : capture_env :=
  {| new_page := new_page env; goto := goto env; click := c; wait_for_timeout := wt;
     evaluate := evaluate env; screenshot := screenshot env;
     error_screenshot := error_screenshot env |}.

(** [emitted P old new]: [new] is [old] with more events on top, each
    satisfying [P]. *)
Inductive emitted (P : event -> bool) (old : list event) : list event -> Prop :=
| emitted_none : emitted P old old
| emitted_more ev l : P ev = true -> emitted P old l -> emitted P old (ev :: l).

(** Events that belong to no particular step of the loop: log lines other
    than the per-row progress line and the summary. *)
Definition is_plain_log (ev : event) : bool :=
  match ev with
  | EvLog _ (ProcessingURL _ _) | EvLog _ (Summary _ _ _ _) => false
  | EvLog _ _ => true
  | _ => false
  end.

(** What a capture may emit: calls on the page, and plain log lines. *)
Definition is_capture_event (ev : event) : bool :=
  match ev with
  | EvNewPage _ | EvGoto _ _ | EvClick _ | EvWaitForTimeout _ | EvEvaluate _
  | EvScreenshot _ _ | EvClose _ => true
  | _ => is_plain_log ev
  end.

(** What one iteration may emit besides its progress line and its delay. *)
Definition is_row_event (ev : event) : bool :=
  match ev with
  | EvSheetGet _ | EvSheetUpdate _ _ | EvUpload _ | EvRemove _ => true
  | _ => is_capture_event ev
  end.

(** Reading the delays off the events (most recent first): for each
    progress line, whether a sleep follows it before the next one.  [seen]
    tells whether a sleep was met since the last progress line. *)
Fixpoint delays_from (seen : bool) (evs : list event) : list bool :=
  match evs with
  | [] => []
  | EvSleep :: evs' => delays_from true evs'
  | EvLog _ (ProcessingURL _ _) :: evs' => seen :: delays_from false evs'
  | _ :: evs' => delays_from seen evs'
  end.

(** Per row, in the order of the rows: was it followed by a delay? *)
Definition delays (w : world) : list bool := rev (delays_from false (events w)).

(** A sleep that precedes every progress line. *)
Fixpoint sleeps_before_first_row (tr : list event) : nat :=
  match tr with
  | EvSleep :: tr' => S (sleeps_before_first_row tr')
  | EvLog _ (ProcessingURL _ _) :: _ => 0
  | _ :: tr' => sleeps_before_first_row tr'
  | [] => 0
  end.

(** Line 53 of gsheet_utils.py on the cell text. *)
Definition is_drive_link (v : pystr) : bool :=
  startswith (strip v) (lit "https://drive.google.com").

(** What [is_url_processed] answers for a row in a given state. *)
Definition marked_processed (w : world) (env : row_env) (row : Z) : bool :=
  match marker_read env, sheet w !! row with
  | None, Some v => is_drive_link v
  | _, _ => false
  end.

(** The row gets as far as the capture. *)
Definition reaches_capture (w : world) (start_row_in_sheet : Z) (i : nat)
    (url : pystr) (env : row_env) : bool :=
  negb (invalid_url url)
  && negb (marked_processed w env (start_row_in_sheet + Z.of_nat i))
  && match generate_screenshot_filename env with inr _ => true | inl _ => false end.

(** The upload-and-record step goes through. *)
Definition recorded (env : row_env) : bool :=
  match upload env, update env with
  | inr _, None => true
  | _, _ => false
  end.

Definition total_counted (c : counters) : nat :=
  (successful_screenshots c + skipped_urls c + failed_screenshots c)%nat.

(** File-name generation raises on no row. *)
Definition names_all_rows (rows : list (pystr * row_env)) : Prop :=
  Forall (fun r => exists n, generate_screenshot_filename r.2 = inr n) rows.

(** Two strings equal up to the case of ASCII letters, for a [t] in lower case. *)
Definition same_ignoring_case (s t : pystr) : Prop :=
  Forall2 (fun a b => a = b \/ ((0x41 <= a)%N /\ (a <= 0x5A)%N /\ (a + 32)%N = b)) s t.

(** The delays a run is expected to make, row by row from index [i]: after
    a row that reaches the capture and is not the last one. *)
Fixpoint expected_delays (w : world) (start_row_in_sheet : Z) (total_urls : nat)
    (i : nat) (rows : list (pystr * row_env)) : list bool :=
  match rows with
  | [] => []
  | (url, env) :: rest =>
      (reaches_capture w start_row_in_sheet i url env && (S i <? total_urls)%nat)
      :: expected_delays w start_row_in_sheet total_urls (S i) rest
  end.

(** A letter of a lower-case ASCII literal. *)
Definition is_ascii_lower (c : N) : bool := ((0x61 <=? c) && (c <=? 0x7A))%N.

(** A record the loop keeps (it has a name and a value). *)
Definition kept (sc : json) : bool :=
  match sc with
  | JObj d => negb (missing_name_or_value d)
  | _ => false
  end.

Definition succeeds {A} (r : exn + A) : bool :=
  match r with inr _ => true | inl _ => false end.

(** A record whose conversion raises nothing: a dict that is skipped, or
    one whose expiry converts to a float and whose domain is falsy or a
    string. *)
Definition converts (float_of_str : pystr -> option spec_float) (sc : json) : bool :=
  match sc with
  | JObj d =>
      missing_name_or_value d
      || ((is_None (dict_get d (lit "expirationDate"))
           || succeeds (py_float float_of_str (dict_get d (lit "expirationDate"))))
          && succeeds (normalized_domain (dict_get d (lit "domain"))))
  | _ => false
  end.

(** The cookie [pc] carries the name and the value of the record [sc]. *)
Definition carries (sc : json) (pc : pw_cookie) : Prop :=
  exists d, sc = JObj d
            /\ name pc = dict_get d (lit "name")
            /\ value pc = dict_get d (lit "value").

(** A capture was started: some page was opened. *)
Definition capture_invoked (w : world) : bool :=
  existsb (fun ev => match ev with EvNewPage _ => true | _ => false end) (events w).

(** What an event hands to the browser. *)
Definition handed (ev : event) : option (list pw_cookie) :=
  match ev with EvAddCookies pcs => Some pcs | _ => None end.

(** ** Sample inputs *)

Module Sample.

(** A dict from its items. *)
Definition obj (items : list (string * json)) : gmap pystr json :=
  list_to_map (List.map (fun kv => (lit kv.1, kv.2)) items).

(** Two cookie records with a name and a value; the expiry of the second
    is an object, not a number. *)
Definition session_cookie : json :=
  JObj (obj [("name", JStr (lit "sid")); ("value", JStr (lit "abc"));
             ("domain", JStr (lit ".example.com")); ("sameSite", JStr (lit "STRICT"))]%string).

Definition odd_expiry_cookie : json :=
  JObj (obj [("name", JStr (lit "theme")); ("value", JStr (lit "dark"));
             ("expirationDate", JObj (obj [("seconds", JInt 1700000000)]%string))]%string).

Definition secure_cookie : gmap pystr json :=
  obj [("name", JStr (lit "token")); ("value", JStr (lit ""));
       ("secure", JBool true); ("sameSite", JNull)]%string.

(** A browser in which everything works, and one whose navigation times out. *)
Definition browser_ok : capture_env :=
  {| new_page := None; goto := Done; click := Raises PlaywrightTimeoutError;
     wait_for_timeout := Done; evaluate := Done; screenshot := Done;
     error_screenshot := Done |}.

Definition browser_timeout : capture_env :=
  {| new_page := None; goto := Raises PlaywrightTimeoutError; click := Done;
     wait_for_timeout := Done; evaluate := Done; screenshot := Done;
     error_screenshot := Done |}.

Definition drive_link : pystr := lit "https://drive.google.com/file/d/1/view".

Definition row_with (n : string) (b : capture_env) : row_env :=
  {| marker_read := None; generate_screenshot_filename := inr (lit n);
     capture := b; upload := inr (lit "1", drive_link); update := None;
     remove_fails := false |}.

(** A row whose URL makes urlparse raise. *)
Definition row_bad_netloc : row_env :=
  {| marker_read := None; generate_screenshot_filename := inl ValueError;
     capture := browser_ok; upload := inr (lit "1", drive_link); update := None;
     remove_fails := false |}.

(** Row 3 of the sheet already carries a link. *)
Definition sheet_with_link : world :=
  with_sheet {[ 3 := drive_link ]} empty_world.

Definition three_rows : list (pystr * row_env) :=
  [(lit "https://a.example/", row_with "a.png" browser_ok);
   (lit "https://b.example/", row_with "b.png" browser_ok);
   (lit "http://c.example/", row_with "c.png" browser_timeout)].

End Sample.

(** ** Further vocabulary *)

(** The link an iteration writes into the marker cell of its row, if it
    writes one: the row reaches the capture, the capture succeeds, and the
    upload and the update both go through. *)
Definition link_recorded (w : world) (start_row_in_sheet : Z) (i : nat)
    (url : pystr) (env : row_env) : option pystr :=
  if reaches_capture w start_row_in_sheet i url env && captured (capture env)
  then match upload env, update env with
       | inr (_, web_link), None => Some web_link
       | _, _ => None
       end
  else None.

(** A row of the values that [read_urls] drops: no cell, or a first cell
    that is blank. *)
Definition dropped_row (row : list pystr) : bool :=
  match row with
  | [] => true
  | c :: _ => match strip c with [] => true | _ :: _ => false end
  end.


(** ** [generate_screenshot_filename] (utils/playwright_utils.py, lines 16-22) *)

(** A string without a path separator. *)
Definition no_sep (s : pystr) : bool :=
  forallb (fun c => negb (OsPath.is_sep c)) s.

Module PlaywrightUtils.

Section Filename.

(** [str.isalnum] on the code points above ASCII, where [\w] matches
    exactly the alphanumeric ones. *)
Variable isalnum : N -> bool.

(** [\w] of a [str] pattern: alphanumeric or the underscore. *)
Definition is_word (c : N) : bool :=
  (if c <? 128
   then (0x30 <=? c) && (c <=? 0x39) || (0x41 <=? c) && (c <=? 0x5A)
        || (0x61 <=? c) && (c <=? 0x7A) || (c =? 0x5F)
   else isalnum c)%N.

(** The characters that [[^\w\-_.]] does not match. *)
Definition is_safe (c : N) : bool :=
  (is_word c || (c =? 0x2D) || (c =? 0x5F) || (c =? 0x2E))%N.

(** [re.sub(r'[^\w\-_.]', '_', s)] *)
Definition sanitize (s : pystr) : pystr :=
  List.map (fun c => if is_safe c then c else 0x5F%N) s.

Fixpoint lstrip_char (c : N) (s : pystr) : pystr :=
  match s with
  | x :: s' => if (x =? c)%N then lstrip_char c s' else s
  | [] => []
  end.

Definition rstrip_char (c : N) (s : pystr) : pystr := rev (lstrip_char c (rev s)).

(** [s.strip(c)] for a one-character [c] *)
Definition strip_char (c : N) (s : pystr) : pystr := rstrip_char c (lstrip_char c s).

(** Lines 20-21; [netloc] and [path] are the two components that
    [urlparse(url)] returns. *)
Definition url_part (netloc path : pystr) : pystr :=
  let url_part := take 75 (sanitize (netloc ++ path)) in
  strip_char 0x2D (strip_char 0x2E (strip_char 0x5F url_part)).

(** [timestamp] is [datetime.now().strftime('%Y%m%d_%H%M%S')]. *)
Definition generate_screenshot_filename (timestamp netloc path : pystr) : pystr :=
  lit "screenshot_" ++ timestamp ++ lit "_" ++ url_part netloc path ++ lit ".png".

End Filename.

End PlaywrightUtils.

(** ** The two calls outside every handler: [page.close()] and [time.sleep()]

    The embedding above takes [page.close()] (line 144, in the [finally]
    of [take_playwright_screenshot]) and [time.sleep] (line 198, at the
    end of an iteration) to return.  Neither call sits inside a [try] that
    would catch what it raises: an exception of [page.close()] leaves
    [take_playwright_screenshot], and with it the iteration, and an
    exception of [time.sleep] leaves the iteration.  This module is the
    same code with the two calls answering like every other call of the
    model; with both answers [None] its definitions are the ones above. *)

Module Unguarded.

(** [page.close()]; when it raises, the page is left as it was. *)
Definition page_close (fails : option exn) (h : nat) : M unit :=
  emit (EvClose h);;
  match fails with
  | Some e => raise e
  | None => modify (fun w => with_pages (<[h:=true]> (pages w)) w)
  end.

(** The [finally] clause, lines 142-145. *)
Definition close_page (close_fails : option exn) (page : option nat) : M unit :=
  match page with
  | Some h =>
      closed ← is_closed h;
      if negb (closed : bool)
      then page_close close_fails h;; log INFO ClosedPage
      else mret tt
  | None => mret tt
  end.

Definition take_playwright_screenshot (close_fails : option exn) (env : capture_env)
    (url output_path : pystr) : M bool :=
  fun w =>
    match context_new_page (new_page env) w with
    | (inl e, w') =>
        try_finally (try_except (raise e) (on_error env output_path None))
                    (close_page close_fails None) w'
    | (inr page, w') =>
        try_finally (try_except (navigate_and_capture env url output_path page)
                                (on_error env output_path (Some page)))
                    (close_page close_fails (Some page)) w'
    end.

(** [time.sleep(INTER_URL_DELAY_SECONDS)].  The delay is
    [float(os.getenv('INTER_URL_DELAY_SECONDS', '3.0'))] (line 22), with no
    check of its range: [time.sleep] raises ValueError when it is negative
    or not a number, OverflowError when it is too large.  Whether it raises
    is the same for every iteration of a run. *)
Definition time_sleep (fails : option exn) : M unit :=
  match fails with
  | Some e => raise e
  | None => emit EvSleep
  end.

Section Loop.

Variable SCREENSHOTS_DIR : pystr.
Variable start_row_in_sheet : Z.
Variable total_urls : nat.
Variable sleep_fails : option exn.

(** Lines 134-198, as [process_row] above. *)
Definition process_row (i : nat) (url : pystr) (env : row_env)
    (close_fails : option exn) : M unit :=
  let current_loop_index := S i in
  let current_sheet_row := start_row_in_sheet + Z.of_nat i in
  log INFO (ProcessingURL current_loop_index total_urls);;
  if invalid_url url then
    log ERROR InvalidOrEmptyURL;; count_failed
  else
    processed ← is_url_processed (marker_read env) current_sheet_row;
    if (processed : bool) then
      log INFO SkippingAlreadyProcessed;; count_skipped
    else
      screenshot_filename ← answer (generate_screenshot_filename env);
      let screenshot_path := OsPath.join SCREENSHOTS_DIR screenshot_filename in
      screenshot_success ←
        take_playwright_screenshot close_fails (capture env) url screenshot_path;
      after_capture env current_sheet_row screenshot_path screenshot_success;;
      if (current_loop_index <? total_urls)%nat
      then log INFO WaitingBeforeNextURL;; time_sleep sleep_fails
      else mret tt.

(** [for i, url in enumerate(urls_to_process)], from index [i] on; each
    row comes with the answers of the outside and that of its
    [page.close()]. *)
Fixpoint process_rows (i : nat) (rows : list (pystr * row_env * option exn)) : M unit :=
  match rows with
  | [] => mret tt
  | (url, env, close_fails) :: rest =>
      process_row i url env close_fails;; process_rows (S i) rest
  end.

End Loop.

End Unguarded.

(** The [finally] of the capture calls [page.close()]: the page was opened
    and none of the calls made on it closed it. *)
Definition close_called (env : capture_env) : bool :=
  let stays_open (o : outcome) : bool :=
    match o with PageCloses => false | _ => true end in
  match new_page env, goto env with
  | Some _, _ => false
  | None, PageCloses => false
  | None, Raises _ => stays_open (error_screenshot env)
  | None, Done =>
      stays_open (click env)
      && match click env with Done => stays_open (wait_for_timeout env) | _ => true end
      && stays_open (evaluate env)
      && match screenshot env with
         | Done => true
         | PageCloses => false
         | Raises _ => stays_open (error_screenshot env)
         end
  end.

(** What a capture gives back: the exception of [page.close()] when that
    call is made and raises, else True or False. *)
Definition capture_result (close_fails : option exn) (env : capture_env) : exn + bool :=
  match close_fails with
  | Some e => if close_called env then inl e else inr (captured env)
  | None => inr (captured env)
  end.

(** The rows without the answers of [page.close()]. *)
Definition guarded_rows (rows : list (pystr * row_env * option exn))
  : list (pystr * row_env) := rows.*1.

(** A browser whose context cannot open a page, and one in which only
    [page.close()] fails. *)
Definition browser_without_pages : capture_env :=
  {| new_page := Some PlaywrightError; goto := Done; click := Done;
     wait_for_timeout := Done; evaluate := Done; screenshot := Done;
     error_screenshot := Done |}.

(** An event of the navigation or of a screenshot. *)
Definition is_navigation_or_screenshot (ev : event) : bool :=
  match ev with
  | EvGoto _ _ | EvScreenshot _ _ => true
  | _ => false
  end.

(** * Proofs *)

(** ** Tactics: running the monad symbolically *)

Ltac unfold_monad :=
  cbv [mbind M_bind mret M_ret raise try_except try_finally except_Exception
       emit log modify gets answer].

Ltac unfold_capture :=
  cbv [take_playwright_screenshot navigate_and_capture on_error save_error_screenshot
       close_page context_new_page page_call page_screenshot page_close is_closed];
  unfold_monad.

Ltac unfold_row :=
  cbv [process_row after_capture is_url_processed sheet_values_get update_metadata upload_file
       path_exists os_remove count_success count_failed count_skipped];
  unfold_monad.

Ltac simp_world :=
  cbn [jar sheet files pages tally events with_jar with_sheet with_files with_pages
       with_tally with_events fst snd negb andb orb is_OSError is_timeout].

Ltac emitted_tac := repeat (apply emitted_more; [reflexivity|]); apply emitted_none.

Ltac elem_tac := repeat first [apply list_elem_of_here | apply list_elem_of_further].

(** ** The capture and the steps of an iteration *)


Lemma insert_snoc {A} (l : list A) (x y : A) : <[length l := y]> (l ++ [x]) = l ++ [y].
Proof. induction l; simpl; [done | by f_equal]. Qed.
Lemma lookup_snoc {A} (l : list A) (x : A) : (l ++ [x]) !! length l = Some x.
Proof. induction l; simpl; done. Qed.
Lemma closed_snoc_false (l : list bool) : bool_decide ((l ++ [false]) !! length l = Some true) = false.
Proof. rewrite lookup_snoc. by apply bool_decide_eq_false_2. Qed.
Lemma closed_snoc_true (l : list bool) : bool_decide ((l ++ [true]) !! length l = Some true) = true.
Proof. rewrite lookup_snoc. by apply bool_decide_eq_true_2. Qed.

Ltac capture_step :=
  first
  [ progress simp_world
  | rewrite insert_snoc
  | rewrite closed_snoc_false
  | rewrite closed_snoc_true
  | match goal with
    | |- context [match ?o with Done => _ | _ => _ end] => is_var o; destruct o
    | |- context [is_timeout ?e] => destruct (is_timeout e)
    end ].

Lemma emitted_weaken (P Q : event -> bool) old new :
  (forall ev, P ev = true -> Q ev = true) -> emitted P old new -> emitted Q old new.
Proof. intros HPQ H. induction H; constructor; auto. Qed.

Lemma emitted_trans P old mid new :
  emitted P old mid -> emitted P mid new -> emitted P old new.
Proof. intros H1 H2. induction H2; [done | by constructor]. Qed.

Lemma delays_from_emitted seen old new :
  emitted is_row_event old new -> delays_from seen new = delays_from seen old.
Proof.
  induction 1 as [| ev l Hev _ IH]; [done |].
  destruct ev as [lv m| | | | | | | | | | | | |]; try discriminate Hev; try exact IH.
  destruct m; try discriminate Hev; exact IH.
Qed.

Lemma take_playwright_screenshot_spec env url path w :
  let r := take_playwright_screenshot env url path w in
  r.1 = inr (captured env)
  /\ jar r.2 = jar w /\ sheet r.2 = sheet w /\ tally r.2 = tally w
  /\ pages r.2 = match new_page env with None => pages w ++ [true] | Some _ => pages w end
  /\ (captured env = true -> files r.2 = {[path]} ∪ files w)
  /\ emitted is_capture_event (events w) (events r.2).
Proof.
  destruct env as [np g c wt ev sc esc].
  unfold captured; cbn [new_page goto screenshot click wait_for_timeout evaluate error_screenshot].
  unfold_capture. cbn [new_page goto screenshot click wait_for_timeout evaluate error_screenshot].
  destruct np.
  all: repeat capture_step.
  all: repeat split; try reflexivity; try (intros; discriminate).
  all: emitted_tac.
Qed.


Section RowFacts.
Variable SCREENSHOTS_DIR : pystr.
Variable start : Z.
Variable total : nat.

Lemma is_url_processed_spec fails row w :
  let r := is_url_processed fails row w in
  r.1 = inr (match fails, sheet w !! row with None, Some v => is_drive_link v | _, _ => false end)
  /\ jar r.2 = jar w /\ sheet r.2 = sheet w /\ tally r.2 = tally w /\ pages r.2 = pages w
  /\ files r.2 = files w
  /\ emitted is_row_event (events w) (events r.2).
Proof.
  unfold is_drive_link. unfold_row. destruct fails; simp_world.
  - repeat split; emitted_tac.
  - destruct (sheet w !! row) as [v|]; simp_world.
    + destruct (startswith _ _); simp_world; repeat split; emitted_tac.
    + repeat split; emitted_tac.
Qed.

Lemma process_row_invalid i url env w :
  invalid_url url = true ->
  process_row SCREENSHOTS_DIR start total i url env w =
    (inr tt,
     {| jar := jar w; sheet := sheet w; files := files w; pages := pages w;
        tally := incr_failed (tally w);
        events := EvLog ERROR InvalidOrEmptyURL
                  :: EvLog INFO (ProcessingURL (S i) total) :: events w |}).
Proof. intros H. unfold_row. rewrite H. reflexivity. Qed.

Lemma process_row_marked i url env w v :
  invalid_url url = false ->
  marker_read env = None ->
  sheet w !! (start + Z.of_nat i) = Some v ->
  is_drive_link v = true ->
  process_row SCREENSHOTS_DIR start total i url env w =
    (inr tt,
     {| jar := jar w; sheet := sheet w; files := files w; pages := pages w;
        tally := incr_skipped (tally w);
        events := EvLog INFO SkippingAlreadyProcessed
                  :: EvSheetGet (start + Z.of_nat i)
                  :: EvLog INFO (ProcessingURL (S i) total) :: events w |}).
Proof.
  intros Hu Hm Hs Hv. unfold is_drive_link in Hv. unfold_row. rewrite Hu, Hm. simp_world.
  rewrite Hs. simp_world. rewrite Hv. reflexivity.
Qed.

End RowFacts.


Lemma emitted_elem P old new ev : emitted P old new -> ev ∈ old -> ev ∈ new.
Proof. induction 1; [done | intros; by apply list_elem_of_further; auto]. Qed.

Lemma emitted_app P old new :
  emitted P old new <-> exists evs, new = evs ++ old /\ Forall (fun ev => P ev = true) evs.
Proof.
  split.
  - induction 1 as [| ev l Hev _ (evs & -> & Hall)].
    + by exists [].
    + exists (ev :: evs). split; [done | by constructor].
  - intros (evs & -> & Hall). induction Hall; simpl; by constructor.
Qed.

Section StepFacts.
Variable SCREENSHOTS_DIR : pystr.
Variable start : Z.
Variable total : nat.

Lemma after_capture_done env row path w :
  path ∈ files w ->
  let r := after_capture env row path true w in
  r.1 = inr tt
  /\ tally r.2 = (if recorded env then incr_successful (tally w) else incr_failed (tally w))
  /\ jar r.2 = jar w /\ pages r.2 = pages w
  /\ files r.2 = (if remove_fails env then files w else files w ∖ {[path]})
  /\ (forall row', row' <> row -> sheet r.2 !! row' = sheet w !! row')
  /\ emitted is_row_event (events w) (events r.2)
  /\ EvRemove path ∈ events r.2
  /\ (remove_fails env = true ->
      EvLog ERROR (ErrorRemovingLocalScreenshot OSError) ∈ events r.2).
Proof.
  intros Hin. destruct env as [mr gf ce up ud rf].
  unfold recorded. cbn [upload update remove_fails].
  unfold_row. cbn [upload update remove_fails]. simp_world.
  rewrite (bool_decide_eq_true_2 _ Hin). simp_world.
  destruct up as [e|[fid link]]; simp_world.
  - rewrite (bool_decide_eq_true_2 _ Hin). destruct rf; simp_world.
    all: repeat split; try done; try emitted_tac; try solve [intros; elem_tac].
  - destruct ud as [e|]; simp_world.
    all: rewrite (bool_decide_eq_true_2 _ Hin); destruct rf; simp_world.
    all: repeat split; try done; try emitted_tac; try solve [intros; elem_tac].
    all: intros row' Hne; by rewrite lookup_insert_ne.
Qed.

Lemma after_capture_failed env row path w :
  after_capture env row path false w =
    (inr tt, with_tally (incr_failed (tally w))
               (with_events (EvLog ERROR FailedToCapture :: events w) w)).
Proof. reflexivity. Qed.

Lemma process_row_reaches i url env w name :
  invalid_url url = false ->
  marked_processed w env (start + Z.of_nat i) = false ->
  generate_screenshot_filename env = inr name ->
  let path := OsPath.join SCREENSHOTS_DIR name in
  let r := process_row SCREENSHOTS_DIR start total i url env w in
  r.1 = inr tt
  /\ tally r.2 = (if captured (capture env) && recorded env
                  then incr_successful (tally w) else incr_failed (tally w))
  /\ jar r.2 = jar w
  /\ pages r.2 = match new_page (capture env) with
                 | None => pages w ++ [true]
                 | Some _ => pages w
                 end
  /\ (captured (capture env) = true ->
      files r.2 = (if remove_fails env then {[path]} ∪ files w
                   else ({[path]} ∪ files w) ∖ {[path]})
      /\ EvRemove path ∈ events r.2
      /\ (remove_fails env = true ->
          EvLog ERROR (ErrorRemovingLocalScreenshot OSError) ∈ events r.2))
  /\ (forall row', row' <> start + Z.of_nat i -> sheet r.2 !! row' = sheet w !! row')
  /\ exists evs,
      events r.2 =
        (if (S i <? total)%nat then [EvSleep; EvLog INFO WaitingBeforeNextURL] else [])
        ++ evs ++ EvLog INFO (ProcessingURL (S i) total) :: events w
      /\ Forall (fun ev => is_row_event ev = true) evs.
Proof.
  intros Hu Hm Hn path r. subst r.
  cbv [process_row]. unfold_monad. rewrite Hu.
  set (w0 := with_events _ w).
  pose proof (is_url_processed_spec (marker_read env) (start + Z.of_nat i) w0)
    as (Hr1 & Hj1 & Hs1 & Ht1 & Hp1 & Hf1 & He1).
  destruct (is_url_processed _ _ w0) as [r1 w1]. cbn [fst snd] in *.
  subst r1. change (sheet w0) with (sheet w) in *.
  unfold marked_processed in Hm. rewrite Hm. rewrite Hn. fold path.
  pose proof (take_playwright_screenshot_spec (capture env) url path w1)
    as (Hr2 & Hj2 & Hs2 & Ht2 & Hp2 & Hf2 & He2).
  destruct (take_playwright_screenshot _ _ _ w1) as [r2 w2]. cbn [fst snd] in *.
  subst r2.
  apply (emitted_weaken _ is_row_event) in He2; [| by intros []].
  pose proof (emitted_trans _ _ _ _ He1 He2) as He12.
  apply emitted_app in He12 as (evs12 & Hev12 & Hall12).
  change (events w0) with (EvLog INFO (ProcessingURL (S i) total) :: events w) in Hev12.
  change (tally w0) with (tally w) in *. change (jar w0) with (jar w) in *.
  change (pages w0) with (pages w) in *. change (files w0) with (files w) in *.
  destruct (captured (capture env)) eqn:Hc.
  - specialize (Hf2 eq_refl).
    assert (Hin : path ∈ files w2).
    { rewrite Hf2. apply elem_of_union_l. by apply elem_of_singleton. }
    pose proof (after_capture_done env (start + Z.of_nat i) path w2 Hin)
      as (Hr3 & Ht3 & Hj3 & Hp3 & Hf3 & Hs3 & He3 & Hrm & Hlog).
    destruct (after_capture _ _ _ true w2) as [r3 w3]. cbn [fst snd] in *.
    subst r3. apply emitted_app in He3 as (evs3 & Hev3 & Hall3).
    assert (Hfiles : files w3 = (if remove_fails env then {[path]} ∪ files w
                                 else ({[path]} ∪ files w) ∖ {[path]})).
    { rewrite Hf3, Hf2, Hf1. done. }
    assert (Hsheet : forall row', row' <> start + Z.of_nat i -> sheet w3 !! row' = sheet w !! row').
    { intros row' Hne. rewrite Hs3 by done. rewrite Hs2, Hs1; done. }
    assert (Htally : tally w3 = if recorded env then incr_successful (tally w)
                                else incr_failed (tally w)).
    { rewrite Ht3, Ht2, Ht1; done. }
    assert (Hpages : pages w3 = match new_page (capture env) with
                                | None => pages w ++ [true] | Some _ => pages w end).
    { rewrite Hp3, Hp2, Hp1; done. }
    assert (Hjar : jar w3 = jar w) by congruence.
    assert (Hevs : exists evs, events w3 = evs ++ EvLog INFO (ProcessingURL (S i) total) :: events w
                               /\ Forall (fun ev => is_row_event ev = true) evs).
    { exists (evs3 ++ evs12). split; [| by apply Forall_app].
      rewrite Hev3, Hev12. by rewrite <- !app_assoc. }
    destruct Hevs as (evs & Hevs & Hall).
    destruct (S i <? total)%nat; simp_world.
    + split_and!; try done.
      * intros _. split_and!; [done | by do 2 apply list_elem_of_further |].
        intros Hrf. do 2 apply list_elem_of_further. auto.
      * exists evs. by rewrite Hevs.
    + split_and!; try done. exists evs. by rewrite Hevs.
  - rewrite after_capture_failed.
    assert (Hevs : exists evs, EvLog ERROR FailedToCapture :: events w2
                               = evs ++ EvLog INFO (ProcessingURL (S i) total) :: events w
                               /\ Forall (fun ev => is_row_event ev = true) evs).
    { exists (EvLog ERROR FailedToCapture :: evs12). split; [by rewrite Hev12 | by constructor]. }
    destruct Hevs as (evs & Hevs & Hall).
    destruct (S i <? total)%nat; simp_world.
    all: split_and!; try done; try congruence.
    all: try (intros row' Hne; rewrite Hs2, Hs1; done).
    all: try (exists evs; by rewrite Hevs).
    all: rewrite Hp2, Hp1; done.
Qed.

Lemma process_row_aborts i url env w e :
  invalid_url url = false ->
  marked_processed w env (start + Z.of_nat i) = false ->
  generate_screenshot_filename env = inl e ->
  let r := process_row SCREENSHOTS_DIR start total i url env w in
  r.1 = inl e /\ tally r.2 = tally w /\ files r.2 = files w /\ sheet r.2 = sheet w
  /\ pages r.2 = pages w.
Proof.
  intros Hu Hm Hn r. subst r.
  cbv [process_row]. unfold_monad. rewrite Hu.
  set (w0 := with_events _ w).
  pose proof (is_url_processed_spec (marker_read env) (start + Z.of_nat i) w0)
    as (Hr1 & Hj1 & Hs1 & Ht1 & Hp1 & Hf1 & He1).
  destruct (is_url_processed _ _ w0) as [r1 w1]. cbn [fst snd] in *.
  subst r1. change (sheet w0) with (sheet w) in *.
  unfold marked_processed in Hm. rewrite Hm. rewrite Hn. simp_world.
  by repeat split.
Qed.

End StepFacts.

(** ** The cookie translator *)


Lemma lower_cp_lower c : is_ascii_lower c = true -> lower_cp c = [c].
Proof.
  unfold is_ascii_lower, lower_cp. intros H.
  apply andb_prop in H as [H1 H2]. apply N.leb_le in H1, H2.
  destruct (N.leb_spec 0x41 c), (N.leb_spec c 0x5A); cbn [andb]; try lia.
  destruct (N.eqb_spec c 0x130); [lia |].
  destruct (N.eqb_spec c 0x212A); [lia | done].
Qed.

Lemma lower_cp_upper c : (0x41 <= c)%N -> (c <= 0x5A)%N -> lower_cp c = [(c + 32)%N].
Proof.
  unfold lower_cp. intros H1 H2.
  apply N.leb_le in H1, H2. by rewrite H1, H2.
Qed.

Lemma lower_same_ignoring_case s t :
  forallb is_ascii_lower t = true -> same_ignoring_case s t -> lower s = t.
Proof.
  intros Ht H. induction H as [| a b s t Hab _ IH]; [done |].
  cbn [forallb] in Ht. apply andb_prop in Ht as [Hb Ht].
  unfold lower. cbn [flat_map]. fold (lower s). rewrite (IH Ht).
  destruct Hab as [-> | (H1 & H2 & <-)].
  - by rewrite lower_cp_lower.
  - by rewrite lower_cp_upper.
Qed.

Lemma dict_get_Some d k v : d !! k = Some v -> dict_get d k = v.
Proof. unfold dict_get. by intros ->. Qed.

Lemma dict_get_None d k : d !! k = None -> dict_get d k = JNull.
Proof. unfold dict_get. by intros ->. Qed.

Lemma dict_get_default_Some d k v dflt : d !! k = Some v -> dict_get_default d k dflt = v.
Proof. unfold dict_get_default. by intros ->. Qed.

Lemma dict_get_default_None d k dflt : d !! k = None -> dict_get_default d k dflt = dflt.
Proof. unfold dict_get_default. by intros ->. Qed.

Lemma eqb_refl s : PyStr.eqb s s = true.
Proof. by apply bool_decide_eq_true_2. Qed.

Lemma valid_samesite_total sc w :
  exists ss w', valid_samesite_for_playwright sc w = (inr ss, w')
                /\ jar w' = jar w /\ emitted is_plain_log (events w) (events w').
Proof.
  unfold valid_samesite_for_playwright.
  destruct (dict_get sc (lit "sameSite")); unfold_monad; simp_world;
    try (eexists _, _; split_and!; [done | done | emitted_tac]).
  - destruct (truthy _); simp_world; eexists _, _; (split_and!; [done | done | emitted_tac]).
  - repeat destruct (PyStr.eqb _ _); eexists _, _; (split_and!; [done | done | emitted_tac]).
Qed.

Section CookieFacts.
Variable float_of_str : pystr -> option spec_float.

Lemma convert_cookie_kept d w :
  missing_name_or_value d = false ->
  match convert_cookie float_of_str (JObj d) w with
  | (inr (Some pc), w') =>
      (valid_samesite_for_playwright d w).1 = inr (sameSite pc)
      /\ carries (JObj d) pc
      /\ converts float_of_str (JObj d) = true
      /\ jar w' = jar w /\ emitted is_plain_log (events w) (events w')
  | (inr None, _) => False
  | (inl _, _) => converts float_of_str (JObj d) = false
  end.
Proof.
  intros Hm. unfold converts. cbn [convert_cookie]. rewrite Hm. cbn [orb].
  destruct (valid_samesite_total d w) as (ss & w1 & Hss & Hj & He).
  unfold_monad. rewrite Hss. cbn [fst].
  destruct (is_None (dict_get d (lit "expirationDate"))); cbn [negb orb andb].
  - destruct (normalized_domain _); cbn [succeeds]; [done |].
    split_and!; try done. by exists d.
  - destruct (py_float _ _); cbn [succeeds andb]; [done |].
    destruct (normalized_domain _); cbn [succeeds]; [done |].
    split_and!; try done. by exists d.
Qed.

Lemma convert_cookie_skipped d w :
  missing_name_or_value d = true ->
  convert_cookie float_of_str (JObj d) w =
    (inr None, with_events (EvLog WARNING SkippingCookie :: events w) w).
Proof. intros Hm. cbn [convert_cookie]. by rewrite Hm. Qed.

End CookieFacts.


Lemma cookies_handed_over_cons ev w l :
  events w = ev :: l ->
  cookies_handed_over w = omap handed (rev l) ++ match handed ev with Some p => [p] | None => [] end.
Proof.
  intros H. unfold cookies_handed_over, trace. rewrite H. cbn [rev].
  rewrite omap_app. reflexivity.
Qed.

Lemma handed_over_plain_log old new :
  emitted is_plain_log old new -> omap handed (rev new) = omap handed (rev old).
Proof.
  induction 1 as [| ev l Hev _ IH]; [done |].
  cbn [rev]. rewrite omap_app, IH.
  destruct ev; try discriminate Hev. cbn. by rewrite app_nil_r.
Qed.

Section HandOver.
Variable float_of_str : pystr -> option spec_float.

Lemma convert_cookies_spec cookies : forall acc w,
  Forall (fun sc => converts float_of_str sc = true) cookies ->
  exists pcs w',
    convert_cookies float_of_str cookies acc w = (inr (acc ++ pcs), w')
    /\ Forall2 carries (List.filter kept cookies) pcs
    /\ jar w' = jar w
    /\ emitted is_plain_log (events w) (events w').
Proof.
  induction cookies as [| sc rest IH]; intros acc w Hall.
  { exists [], w. rewrite app_nil_r. split_and!; try done; constructor. }
  apply Forall_cons in Hall as [Hsc Hall].
  destruct sc as [| | | | | |d]; try discriminate Hsc.
  cbn [convert_cookies List.filter kept]. unfold mbind, M_bind.
  destruct (missing_name_or_value d) eqn:Hm; cbn [negb].
  - rewrite (convert_cookie_skipped _ _ _ Hm).
    destruct (IH acc (with_events (EvLog WARNING SkippingCookie :: events w) w) Hall)
      as (pcs & w' & Heq & Hcar & Hj & He).
    exists pcs, w'. split_and!; try done.
    eapply emitted_trans; [| exact He]. by repeat constructor.
  - pose proof (convert_cookie_kept float_of_str d w Hm) as Hk.
    destruct (convert_cookie float_of_str (JObj d) w) as [[e|[pc|]] w1]; [congruence | | done].
    destruct Hk as (_ & Hc & _ & Hj1 & He1).
    destruct (IH (acc ++ [pc]) w1 Hall) as (pcs & w' & Heq & Hcar & Hj & He).
    exists (pc :: pcs), w'. split_and!.
    + rewrite Heq. by rewrite <- app_assoc.
    + by constructor.
    + congruence.
    + by eapply emitted_trans.
Qed.

Lemma load_playwright_cookies_spec cookies refused w :
  Forall (fun sc => converts float_of_str sc = true) cookies ->
  exists pcs,
    Forall2 carries (List.filter kept cookies) pcs
    /\ cookies_handed_over
         (load_playwright_cookies float_of_str (Parsed (JArr cookies)) refused w).2
       = cookies_handed_over w ++ match pcs with [] => [] | _ :: _ => [pcs] end.
Proof.
  intros Hall.
  destruct (convert_cookies_spec cookies [] w Hall) as (pcs & w' & Heq & Hcar & Hj & He).
  exists pcs. split; [done |].
  unfold load_playwright_cookies, add_cookies. unfold_monad. rewrite Heq. cbn [app].
  apply handed_over_plain_log in He.
  destruct pcs as [| pc pcs].
  - simp_world. erewrite cookies_handed_over_cons by reflexivity.
    cbn [handed]. by rewrite He.
  - destruct refused; simp_world.
    all: erewrite cookies_handed_over_cons by reflexivity; cbn [handed].
    all: rewrite app_nil_r; cbn [rev]; rewrite omap_app, He; done.
Qed.

End HandOver.

(** ** The loop *)

Lemma delays_from_row_events seen evs old :
  Forall (fun ev => is_row_event ev = true) evs ->
  delays_from seen (evs ++ old) = delays_from seen old.
Proof.
  intros H. apply delays_from_emitted. apply emitted_app. eauto.
Qed.

Lemma total_counted_incr c :
  total_counted (incr_successful c) = S (total_counted c)
  /\ total_counted (incr_failed c) = S (total_counted c)
  /\ total_counted (incr_skipped c) = S (total_counted c).
Proof. unfold total_counted; cbn; lia. Qed.

Lemma reaches_capture_sheet w w' start i url env :
  sheet w' !! (start + Z.of_nat i) = sheet w !! (start + Z.of_nat i) ->
  reaches_capture w' start i url env = reaches_capture w start i url env.
Proof. intros H. unfold reaches_capture, marked_processed. by rewrite H. Qed.

Section RunFacts.
Variable SCREENSHOTS_DIR : pystr.
Variable start : Z.
Variable total : nat.

Lemma process_row_step i url env w :
  (exists n, generate_screenshot_filename env = inr n) ->
  let r := process_row SCREENSHOTS_DIR start total i url env w in
  r.1 = inr tt
  /\ (tally r.2 = incr_successful (tally w) \/ tally r.2 = incr_skipped (tally w)
      \/ tally r.2 = incr_failed (tally w))
  /\ (forall row', row' <> start + Z.of_nat i -> sheet r.2 !! row' = sheet w !! row')
  /\ exists evs,
      events r.2 =
        (if reaches_capture w start i url env && (S i <? total)%nat
         then [EvSleep; EvLog INFO WaitingBeforeNextURL] else [])
        ++ evs ++ EvLog INFO (ProcessingURL (S i) total) :: events w
      /\ Forall (fun ev => is_row_event ev = true) evs.
Proof.
  intros [n Hn]. unfold reaches_capture. rewrite Hn.
  destruct (invalid_url url) eqn:Hu.
  { rewrite (process_row_invalid _ _ _ _ _ _ _ Hu). cbn [fst snd tally sheet events negb andb app].
    split_and!; try done; [by auto |]. exists [EvLog ERROR InvalidOrEmptyURL]. split; [done | by repeat constructor]. }
  destruct (marked_processed w env (start + Z.of_nat i)) eqn:Hm.
  { unfold marked_processed in Hm.
    destruct (marker_read env) eqn:Hmr; [done |].
    destruct (sheet w !! (start + Z.of_nat i)) as [v|] eqn:Hv; [| done].
    rewrite (process_row_marked _ _ _ _ _ _ _ v Hu Hmr Hv Hm).
    cbn [fst snd tally sheet events negb andb app].
    split_and!; try done; [by auto |].
    exists [EvLog INFO SkippingAlreadyProcessed; EvSheetGet (start + Z.of_nat i)].
    split; [done | by repeat constructor]. }
  pose proof (process_row_reaches SCREENSHOTS_DIR start total i url env w n Hu Hm Hn)
    as (Hr & Ht & _ & _ & _ & Hsh & Hev).
  cbn [negb andb]. split_and!; try done.
  rewrite Ht. destruct (captured _ && recorded _); auto.
Qed.

Lemma expected_delays_sheet w w' i rows :
  (forall row', start + Z.of_nat i <= row' -> sheet w' !! row' = sheet w !! row') ->
  expected_delays w' start total i rows = expected_delays w start total i rows.
Proof.
  revert i. induction rows as [| [url env] rest IH]; intros i H; [done |].
  cbn [expected_delays]. rewrite (reaches_capture_sheet w w') by (apply H; lia).
  f_equal. apply IH. intros row' Hle. apply H. lia.
Qed.

Lemma process_rows_spec rows : forall i w,
  names_all_rows rows ->
  let r := process_rows SCREENSHOTS_DIR start total i rows w in
  r.1 = inr tt
  /\ total_counted (tally r.2) = (length rows + total_counted (tally w))%nat
  /\ delays_from false (events r.2) =
       rev (expected_delays w start total i rows) ++ delays_from false (events w)
  /\ match rows with
     | [] => events r.2 = events w
     | _ :: _ => exists evs, events r.2 = evs ++ EvLog INFO (ProcessingURL (S i) total) :: events w
     end.
Proof.
  induction rows as [| [url env] rest IH]; intros i w Hall.
  { cbn. by split_and!. }
  apply Forall_cons in Hall as [Hn Hall]. cbn [snd] in Hn.
  cbn [process_rows]. unfold_monad.
  pose proof (process_row_step i url env w Hn) as (Hr1 & Ht1 & Hs1 & evs & Hev1 & Hrow).
  destruct (process_row _ _ _ i url env w) as [r1 w1]. cbn [fst snd] in *. subst r1.
  specialize (IH (S i) w1 Hall) as (Hr2 & Ht2 & Hd2 & Hev2).
  destruct (process_rows _ _ _ (S i) rest w1) as [r2 w2]. cbn [fst snd] in *.
  split_and!.
  - done.
  - rewrite Ht2. destruct (total_counted_incr (tally w)) as (Hs & Hf & Hk).
    destruct Ht1 as [-> | [-> | ->]]; cbn [length]; lia.
  - rewrite Hd2. cbn [expected_delays rev].
    rewrite (expected_delays_sheet w w1) by (intros row' Hle; apply Hs1; lia).
    rewrite <- app_assoc. f_equal. rewrite Hev1.
    destruct (reaches_capture w start i url env && (S i <? total)%nat); cbn [app delays_from].
    all: by rewrite delays_from_row_events.
  - set (pause := if reaches_capture w start i url env && (S i <? total)%nat
                  then [EvSleep; EvLog INFO WaitingBeforeNextURL] else []) in *.
    destruct rest as [| row rest].
    + rewrite Hev2, Hev1. exists (pause ++ evs). by rewrite <- app_assoc.
    + destruct Hev2 as (evs2 & ->). rewrite Hev1.
      exists (evs2 ++ EvLog INFO (ProcessingURL (S (S i)) total) :: pause ++ evs).
      rewrite <- (app_assoc evs2). cbn [app]. by rewrite <- app_assoc.
Qed.

End RunFacts.

(** * The claims *)

(** ** The run as a whole *)

Lemma main_completes dir start rows w :
  rows <> [] -> names_all_rows rows ->
  let w' := (process_rows dir start (length rows) 0 rows (with_tally no_counts w)).2 in
  main dir (Some start) rows w =
    (inr tt,
     with_events (EvLog INFO (Summary (length rows)
                                (successful_screenshots (tally w'))
                                (skipped_urls (tally w'))
                                (failed_screenshots (tally w')))
                  :: events w') w').
Proof.
  intros Hne Hall. unfold main. cbv zeta. rewrite length_fmap.
  destruct rows as [| [url env] rest]; [done |].
  cbn [fmap list_fmap]. unfold_monad. cbn [fst snd].
  pose proof (process_rows_spec dir start (length ((url, env) :: rest)) _ 0
                (with_tally no_counts w) Hall) as (Hr & _).
  destruct (process_rows _ _ _ 0 _ _) as [r w']. cbn [fst snd] in *. by subst r.
Qed.

Lemma expected_delays_length w start total rows : forall i,
  length (expected_delays w start total i rows) = length rows.
Proof. induction rows as [| [url env] rest IH]; intros i; cbn; [done | by rewrite IH]. Qed.

Lemma expected_delays_lookup w start total rows : forall i j url env,
  rows !! j = Some (url, env) ->
  expected_delays w start total i rows !! j
  = Some (reaches_capture w start (i + j) url env && (S (i + j) <? total)%nat).
Proof.
  induction rows as [| [url0 env0] rest IH]; intros i j url env Hj; [done |].
  destruct j as [| j].
  - change (Some (url0, env0) = Some (url, env)) in Hj. injection Hj as -> ->.
    by rewrite Nat.add_0_r.
  - rewrite Nat.add_succ_r. exact (IH (S i) j url env Hj).
Qed.

Lemma head_rev_snoc {A} (l : list A) (x : A) : head (rev (l ++ [x])) = Some x.
Proof. by rewrite rev_app_distr. Qed.

(** ** Screenshot capture *)

(** C8. When [new_page] returned a page, that page is closed when the
    capture returns, whatever happened in between; the other pages of the
    context are as they were. *)
Theorem page_closed_on_exit (env : capture_env) (url output_path : pystr) (w : world) :
  new_page env = None ->
  let w' := (take_playwright_screenshot env url output_path w).2 in
  pages w' !! length (pages w) = Some true
  /\ pages w' = pages w ++ [true].
Proof.
  intros Hnp. cbv zeta.
  pose proof (take_playwright_screenshot_spec env url output_path w)
    as (_ & _ & _ & _ & Hp & _).
  cbv zeta in Hp. rewrite Hnp in Hp. rewrite Hp. split; [apply lookup_snoc | done].
Qed.

Lemma page_closed_on_exit_witness :
  let w' := (take_playwright_screenshot Sample.browser_timeout (lit "http://c.example/")
               (lit "screenshots/c.png") empty_world).2 in
  pages w' !! length (pages empty_world) = Some true
  /\ pages w' = pages empty_world ++ [true].
Proof. apply (page_closed_on_exit Sample.browser_timeout). reflexivity. Defined.

(** ** One iteration of the loop *)



(** C5 as stated fails: a row whose marker cell holds a Drive link but
    whose URL is not valid is counted as failed, not as skipped. *)
Lemma marked_row_with_invalid_url_fails :
  marked_processed Sample.sheet_with_link (Sample.row_with "x.png" Sample.browser_ok) 3 = true
  /\ let r := process_row (lit "screenshots") 3 1 0 (lit "ftp://x")
                (Sample.row_with "x.png" Sample.browser_ok) Sample.sheet_with_link in
     skipped_urls (tally r.2) = 0%nat /\ failed_screenshots (tally r.2) = 1%nat.
Proof. vm_compute. auto. Qed.

(** C5, amended. A row with a valid URL whose marker cell is read without
    error and holds, white space stripped, a text that starts with
    "https://drive.google.com" is counted as skipped; the iteration does
    nothing else than log its progress, read the cell and log the skip: no
    capture, no upload, no sheet update, no delay. *)
Theorem marked_row_is_skipped (SCREENSHOTS_DIR : pystr) (start_row : Z)
    (total_urls i : nat) (url : pystr) (env : row_env) (w : world) (v : pystr) :
  invalid_url url = false ->
  marker_read env = None ->
  sheet w !! (start_row + Z.of_nat i) = Some v ->
  startswith (strip v) (lit "https://drive.google.com") = true ->
  process_row SCREENSHOTS_DIR start_row total_urls i url env w =
    (inr tt,
     {| jar := jar w; sheet := sheet w; files := files w; pages := pages w;
        tally := incr_skipped (tally w);
        events := EvLog INFO SkippingAlreadyProcessed
                  :: EvSheetGet (start_row + Z.of_nat i)
                  :: EvLog INFO (ProcessingURL (S i) total_urls) :: events w |}).
Proof. intros Hu Hm Hs Hv. by apply (process_row_marked _ _ _ _ _ _ _ v). Qed.

Lemma marked_row_is_skipped_witness :
  process_row (lit "screenshots") 2 3 1 (lit "https://b.example/")
    (Sample.row_with "b.png" Sample.browser_ok) Sample.sheet_with_link =
    (inr tt,
     {| jar := jar Sample.sheet_with_link; sheet := sheet Sample.sheet_with_link;
        files := files Sample.sheet_with_link; pages := pages Sample.sheet_with_link;
        tally := incr_skipped (tally Sample.sheet_with_link);
        events := EvLog INFO SkippingAlreadyProcessed
                  :: EvSheetGet (2 + Z.of_nat 1)
                  :: EvLog INFO (ProcessingURL 2 3) :: events Sample.sheet_with_link |}).
Proof.
  apply (marked_row_is_skipped (lit "screenshots") 2 3 1 (lit "https://b.example/")
           (Sample.row_with "b.png" Sample.browser_ok) Sample.sheet_with_link
           Sample.drive_link); reflexivity.
Defined.

(** C6 as stated fails: a URL with a leading blank does not begin with
    "http://" or "https://", yet the row is captured and counted as a
    success. *)
Lemma blank_before_scheme_is_accepted :
  startswith_any (lit " http://a.example/") [lit "http://"; lit "https://"] = false
  /\ let r := process_row (lit "screenshots") 2 1 0 (lit " http://a.example/")
                (Sample.row_with "a.png" Sample.browser_ok) empty_world in
     failed_screenshots (tally r.2) = 0%nat
     /\ successful_screenshots (tally r.2) = 1%nat
     /\ capture_invoked r.2 = true.
Proof. vm_compute. auto. Qed.

(** C6, amended. A row whose URL is empty or, once the white space around
    it is stripped, begins with neither "http://" nor "https://" is counted
    as failed; the iteration ends normally (the loop goes on to the next
    row) having only logged its progress and the error: no sheet read, no
    capture. *)
Theorem invalid_url_counts_failed (SCREENSHOTS_DIR : pystr) (start_row : Z)
    (total_urls i : nat) (url : pystr) (env : row_env) (w : world) :
  url = [] \/ startswith_any (strip url) [lit "http://"; lit "https://"] = false ->
  process_row SCREENSHOTS_DIR start_row total_urls i url env w =
    (inr tt,
     {| jar := jar w; sheet := sheet w; files := files w; pages := pages w;
        tally := incr_failed (tally w);
        events := EvLog ERROR InvalidOrEmptyURL
                  :: EvLog INFO (ProcessingURL (S i) total_urls) :: events w |}).
Proof.
  intros H. apply process_row_invalid. unfold invalid_url.
  destruct H as [-> | ->]; [reflexivity | apply orb_true_r].
Qed.

Lemma invalid_url_counts_failed_witness :
  process_row (lit "screenshots") 2 3 0 (lit "ftp://x")
    (Sample.row_with "x.png" Sample.browser_ok) empty_world =
    (inr tt,
     {| jar := jar empty_world; sheet := sheet empty_world; files := files empty_world;
        pages := pages empty_world;
        tally := incr_failed (tally empty_world);
        events := EvLog ERROR InvalidOrEmptyURL
                  :: EvLog INFO (ProcessingURL 1 3) :: events empty_world |}).
Proof.
  apply (invalid_url_counts_failed (lit "screenshots") 2 3 0 (lit "ftp://x")).
  right. reflexivity.
Defined.

(** ** Whole runs *)

(** C3: a row on which file-name generation raises (a URL such as
    "http://[", which passes the scheme test and on which urlparse raises
    ValueError) ends the loop through the catch-all handler: when it is the
    first row reached, the summary reports the total and three counters at
    zero, so that row and the ones after it are counted nowhere. *)
Theorem uncounted_rows_after_escaped_exception (SCREENSHOTS_DIR : pystr) (start_row : Z)
    (url : pystr) (env : row_env) (rest : list (pystr * row_env)) (w : world) (e : exn) :
  invalid_url url = false ->
  marked_processed w env (start_row + Z.of_nat 0) = false ->
  generate_screenshot_filename env = inl e ->
  let r := main SCREENSHOTS_DIR (Some start_row) ((url, env) :: rest) w in
  r.1 = inr tt
  /\ summary_of r.2 = Some (S (length rest), 0, 0, 0)%nat
  /\ EvLog CRITICAL (CriticalErrorInLoop e) ∈ events r.2.
Proof.
  intros Hu Hm Hn. unfold main. cbv zeta. rewrite length_fmap.
  cbn [fmap list_fmap process_rows]. unfold_monad. cbn [fst snd].
  pose proof (process_row_aborts SCREENSHOTS_DIR start_row (length ((url, env) :: rest)) 0
                url env (with_tally no_counts w) e Hu Hm Hn) as (Hr & Ht & _).
  cbv zeta in Hr, Ht.
  destruct (process_row _ _ _ 0 url env _) as [r1 w1]. cbn [fst snd] in *. subst r1.
  simp_world. rewrite Ht. unfold summary_of. simp_world.
  split_and!; [done | reflexivity | elem_tac].
Qed.

Lemma uncounted_rows_after_escaped_exception_witness :
  let r := main (lit "screenshots") (Some 2)
             [(lit "http://[", Sample.row_bad_netloc);
              (lit "https://b.example/", Sample.row_with "b.png" Sample.browser_ok)]
             empty_world in
  r.1 = inr tt
  /\ summary_of r.2 = Some (2, 0, 0, 0)%nat
  /\ EvLog CRITICAL (CriticalErrorInLoop ValueError) ∈ events r.2.
Proof.
  apply (uncounted_rows_after_escaped_exception (lit "screenshots") 2 (lit "http://[")
           Sample.row_bad_netloc
           [(lit "https://b.example/", Sample.row_with "b.png" Sample.browser_ok)]
           empty_world ValueError); reflexivity.
Defined.

(** The spec's example: of three rows, the first succeeds, the second is
    already processed and the capture of the third times out. *)
Theorem three_rows_summary :
  summary_of (main (lit "screenshots") (Some 2) Sample.three_rows
                Sample.sheet_with_link).2
  = Some (3, 1, 1, 1)%nat.
Proof. vm_compute. reflexivity. Qed.

(** C9 as stated fails: in the run of the three sample rows the second
    row, which is skipped and is not the last, is followed by no delay. *)
Lemma no_delay_after_skipped_row :
  delays (main (lit "screenshots") (Some 2) Sample.three_rows Sample.sheet_with_link).2
  = [true; false; false].
Proof. vm_compute. reflexivity. Qed.

(** C9, amended. In a run on which file-name generation raises on no row,
    a delay follows exactly the rows that reach the capture and are not
    the last one: none follows a row that is invalid or skipped, none
    follows the last row, and nothing precedes the progress line of the
    first row. *)
Theorem delay_follows_captured_rows (SCREENSHOTS_DIR : pystr) (start_row : Z)
    (rows : list (pystr * row_env)) (w : world) :
  rows <> [] ->
  names_all_rows rows ->
  events w = [] ->
  let w' := (main SCREENSHOTS_DIR (Some start_row) rows w).2 in
  length (delays w') = length rows
  /\ (forall i url env, rows !! i = Some (url, env) ->
        delays w' !! i
        = Some (reaches_capture w start_row i url env && (S i <? length rows)%nat))
  /\ head (trace w') = Some (EvLog INFO (ProcessingURL 1 (length rows))).
Proof.
  intros Hne Hall Hev. cbv zeta. rewrite (main_completes _ _ _ _ Hne Hall). cbv zeta.
  pose proof (process_rows_spec SCREENSHOTS_DIR start_row (length rows) rows 0
                (with_tally no_counts w) Hall) as (_ & _ & Hd & Hfirst).
  cbv zeta in Hd, Hfirst.
  destruct (process_rows _ _ _ 0 rows _) as [r w']. cbn [fst snd] in *.
  change (events (with_tally no_counts w)) with (events w) in *. rewrite Hev in *.
  assert (Hdel : delays (with_events (EvLog INFO (Summary (length rows)
                     (successful_screenshots (tally w')) (skipped_urls (tally w'))
                     (failed_screenshots (tally w'))) :: events w') w')
                 = expected_delays w start_row (length rows) 0 rows).
  { unfold delays. simp_world. cbn [delays_from]. rewrite Hd. cbn [delays_from].
    rewrite app_nil_r, rev_involutive. by apply expected_delays_sheet. }
  rewrite Hdel. split_and!.
  - apply expected_delays_length.
  - intros i url env Hi. by rewrite (expected_delays_lookup _ _ _ _ 0 i url env Hi).
  - destruct rows as [| row rest]; [done |]. destruct Hfirst as (evs & Hevs).
    unfold trace. simp_world. rewrite Hevs.
    change (EvLog INFO (Summary ?a ?b ?c ?d) :: evs ++ [?m])
      with ((EvLog INFO (Summary a b c d) :: evs) ++ [m]).
    apply head_rev_snoc.
Qed.

Lemma delay_follows_captured_rows_witness :
  let w' := (main (lit "screenshots") (Some 2) Sample.three_rows
               Sample.sheet_with_link).2 in
  length (delays w') = length Sample.three_rows
  /\ (forall i url env, Sample.three_rows !! i = Some (url, env) ->
        delays w' !! i
        = Some (reaches_capture Sample.sheet_with_link 2 i url env
                && (S i <? length Sample.three_rows)%nat))
  /\ head (trace w') = Some (EvLog INFO (ProcessingURL 1 (length Sample.three_rows))).
Proof.
  apply (delay_follows_captured_rows (lit "screenshots") 2 Sample.three_rows
           Sample.sheet_with_link).
  - discriminate.
  - repeat constructor; eexists; reflexivity.
  - reflexivity.
Defined.

(** ** The cookie translator *)

Section TranslatorClaims.

Variable float_of_str : pystr -> option spec_float.

(** C1. For a record that has a name and a value, the sameSite given to
    the cookie is: 'Strict', 'Lax', 'None' when the record's sameSite is the
    string "strict", "lax", "none" in any mix of upper and lower case,
    whatever its secure flag; and, when sameSite is absent or null, 'None'
    if secure is true and 'Lax' if secure is false or absent.  The record
    is never skipped, and the cookie made of it carries that sameSite. *)
Theorem sameSite_translation (sc : gmap pystr json) (w : world) :
  missing_name_or_value sc = false ->
  let result := (valid_samesite_for_playwright sc w).1 in
  (forall s, sc !! lit "sameSite" = Some (JStr s) ->
     (same_ignoring_case s (lit "strict") -> result = inr Strict)
     /\ (same_ignoring_case s (lit "lax") -> result = inr Lax)
     /\ (same_ignoring_case s (lit "none") -> result = inr SameSiteNone))
  /\ (sc !! lit "sameSite" = None \/ sc !! lit "sameSite" = Some JNull ->
      (sc !! lit "secure" = Some (JBool true) -> result = inr SameSiteNone)
      /\ (sc !! lit "secure" = Some (JBool false) \/ sc !! lit "secure" = None ->
          result = inr Lax))
  /\ match (convert_cookie float_of_str (JObj sc) w).1 with
     | inr (Some pc) => result = inr (sameSite pc)
     | inr None => False
     | inl _ => converts float_of_str (JObj sc) = false
     end.
Proof.
  intros Hm. cbv zeta. split_and!.
  - intros s Hs. unfold valid_samesite_for_playwright.
    rewrite (dict_get_Some _ _ _ Hs). cbv beta iota zeta.
    split_and!; intros Hci;
      (apply lower_same_ignoring_case in Hci; [| reflexivity]); rewrite Hci; reflexivity.
  - intros Hnull. unfold valid_samesite_for_playwright.
    assert (dict_get sc (lit "sameSite") = JNull) as ->.
    { destruct Hnull as [H | H]; [by apply dict_get_None | by apply dict_get_Some]. }
    cbv beta iota zeta. split.
    + intros H. by rewrite (dict_get_default_Some _ _ _ _ H).
    + intros [H | H];
        [by rewrite (dict_get_default_Some _ _ _ _ H)
        | by rewrite (dict_get_default_None _ _ _ H)].
  - pose proof (convert_cookie_kept float_of_str sc w Hm) as Hk.
    destruct (convert_cookie float_of_str (JObj sc) w) as [[e | [pc |]] w']; cbn [fst];
      [done | by destruct Hk | done].
Qed.

(** C10. The test that drops a record is not symmetric in its two
    fields.  With a truthy name, a value that is the empty string passes
    (the record is converted, not skipped), and only an absent or null
    value drops the record; a falsy name, the empty string in particular,
    drops it whatever the value.  A record with a name and an empty value
    whose conversion raises nothing is handed to the browser. *)
Theorem missing_field_check_asymmetric (sc : gmap pystr json) (w : world) :
  (truthy (dict_get sc (lit "name")) = true ->
     (sc !! lit "value" = Some (JStr []) ->
        missing_name_or_value sc = false
        /\ (convert_cookie float_of_str (JObj sc) w).1 <> inr None)
     /\ (missing_name_or_value sc = true <->
         sc !! lit "value" = None \/ sc !! lit "value" = Some JNull))
  /\ (truthy (dict_get sc (lit "name")) = false ->
      missing_name_or_value sc = true
      /\ convert_cookie float_of_str (JObj sc) w
         = (inr None, with_events (EvLog WARNING SkippingCookie :: events w) w))
  /\ (sc !! lit "name" = Some (JStr []) -> truthy (dict_get sc (lit "name")) = false)
  /\ (truthy (dict_get sc (lit "name")) = true ->
      sc !! lit "value" = Some (JStr []) ->
      converts float_of_str (JObj sc) = true ->
      exists pc,
        cookies_handed_over
          (load_playwright_cookies float_of_str (Parsed (JArr [JObj sc])) None
             empty_world).2 = [[pc]]
        /\ value pc = JStr [] /\ name pc = dict_get sc (lit "name")).
Proof.
  assert (Hempty : sc !! lit "value" = Some (JStr []) ->
                   truthy (dict_get sc (lit "name")) = true ->
                   missing_name_or_value sc = false).
  { intros Hv Hn. unfold missing_name_or_value. rewrite Hn.
    by rewrite (dict_get_Some _ _ _ Hv). }
  split_and!.
  - intros Hn. split.
    + intros Hv. split; [by apply Hempty |].
      pose proof (convert_cookie_kept float_of_str sc w (Hempty Hv Hn)) as Hk.
      destruct (convert_cookie float_of_str (JObj sc) w) as [[e | [pc |]] w']; cbn [fst];
        [done | done | done].
    + unfold missing_name_or_value. rewrite Hn. cbn [negb orb].
      destruct (sc !! lit "value") as [v |] eqn:Hv.
      * rewrite (dict_get_Some _ _ _ Hv).
        destruct v; cbn [is_None]; split; intros H; try done; auto;
          by destruct H as [H | H].
      * rewrite (dict_get_None _ _ Hv). cbn [is_None]. split; auto.
  - intros Hn.
    assert (Hm : missing_name_or_value sc = true)
      by (unfold missing_name_or_value; by rewrite Hn).
    split; [done | by apply convert_cookie_skipped].
  - intros Hn. by rewrite (dict_get_Some _ _ _ Hn).
  - intros Hn Hv Hc.
    destruct (load_playwright_cookies_spec float_of_str [JObj sc] None empty_world)
      as (pcs & Hcar & Hout).
    { by repeat constructor. }
    cbn [List.filter kept] in Hcar. rewrite (Hempty Hv Hn) in Hcar. cbn [negb] in Hcar.
    apply Forall2_cons_inv_l in Hcar as (pc & pcs' & (d & Hd & Hname & Hvalue) & Hnil & ->).
    apply Forall2_nil_inv_l in Hnil as ->.
    injection Hd as <-. exists pc. split_and!; [exact Hout | | done].
    rewrite Hvalue. by apply dict_get_Some.
Qed.

(** C2, amended. Every record whose name is falsy (absent, null, empty)
    or whose value is absent or null is left out; when the conversion of no
    record raises (each is a dict and, if kept, has an expiry that converts
    to a float and a domain that is falsy or a string), the cookies handed
    to the browser are those of the kept records, one for each and in their
    order, each with the name and the value of its record; nothing is handed
    over when no record is kept. *)
Theorem kept_records_are_translated (cookies : list json) (refused : option exn)
    (w : world) :
  Forall (fun sc => converts float_of_str sc = true) cookies ->
  exists pcs,
    Forall2 carries (List.filter kept cookies) pcs
    /\ cookies_handed_over
         (load_playwright_cookies float_of_str (Parsed (JArr cookies)) refused w).2
       = cookies_handed_over w ++ match pcs with [] => [] | _ :: _ => [pcs] end.
Proof. apply load_playwright_cookies_spec. Qed.

End TranslatorClaims.

Lemma sameSite_translation_witness :
  let result := (valid_samesite_for_playwright Sample.secure_cookie empty_world).1 in
  (forall s, Sample.secure_cookie !! lit "sameSite" = Some (JStr s) ->
     (same_ignoring_case s (lit "strict") -> result = inr Strict)
     /\ (same_ignoring_case s (lit "lax") -> result = inr Lax)
     /\ (same_ignoring_case s (lit "none") -> result = inr SameSiteNone))
  /\ (Sample.secure_cookie !! lit "sameSite" = None
      \/ Sample.secure_cookie !! lit "sameSite" = Some JNull ->
      (Sample.secure_cookie !! lit "secure" = Some (JBool true) ->
       result = inr SameSiteNone)
      /\ (Sample.secure_cookie !! lit "secure" = Some (JBool false)
          \/ Sample.secure_cookie !! lit "secure" = None ->
          result = inr Lax))
  /\ match (convert_cookie (fun _ => None) (JObj Sample.secure_cookie) empty_world).1 with
     | inr (Some pc) => result = inr (sameSite pc)
     | inr None => False
     | inl _ => converts (fun _ => None) (JObj Sample.secure_cookie) = false
     end.
Proof.
  apply (sameSite_translation (fun _ => None) Sample.secure_cookie empty_world).
  reflexivity.
Defined.

Lemma kept_records_are_translated_witness :
  exists pcs,
    Forall2 carries
      (List.filter kept [Sample.session_cookie; JObj Sample.secure_cookie; JObj ∅]) pcs
    /\ cookies_handed_over
         (load_playwright_cookies (fun _ => None)
            (Parsed (JArr [Sample.session_cookie; JObj Sample.secure_cookie; JObj ∅]))
            None empty_world).2
       = cookies_handed_over empty_world ++ match pcs with [] => [] | _ :: _ => [pcs] end.
Proof.
  apply (kept_records_are_translated (fun _ => None)
           [Sample.session_cookie; JObj Sample.secure_cookie; JObj ∅] None empty_world).
  repeat constructor.
Defined.

(** C2 as stated fails: of two records that both have a name and a
    value, neither reaches the browser when the expiry of one does not
    convert to a float. *)
Lemma one_bad_expiry_loses_every_cookie :
  kept Sample.session_cookie = true
  /\ kept Sample.odd_expiry_cookie = true
  /\ forall float_of_str,
       cookies_handed_over
         (load_playwright_cookies float_of_str
            (Parsed (JArr [Sample.session_cookie; Sample.odd_expiry_cookie]))
            None empty_world).2 = [].
Proof. split_and!; [reflexivity | reflexivity |]. intros f. vm_compute. reflexivity. Qed.

(** The three spellings of the policy table on concrete records. *)
Example sameSite_examples :
  (valid_samesite_for_playwright
     (Sample.obj [("sameSite", JStr (lit "Strict")); ("secure", JBool false)]%string)
     empty_world).1 = inr Strict
  /\ (valid_samesite_for_playwright
        (Sample.obj [("sameSite", JStr (lit "NONE"))]%string) empty_world).1
     = inr SameSiteNone
  /\ (valid_samesite_for_playwright (Sample.obj [("secure", JBool true)]%string)
        empty_world).1 = inr SameSiteNone
  /\ (valid_samesite_for_playwright (Sample.obj []) empty_world).1 = inr Lax.
Proof. vm_compute. auto. Qed.

(** ** More on the loop *)

Section MarkerFacts.

Variable SCREENSHOTS_DIR : pystr.
Variable start : Z.
Variable total : nat.

Lemma after_capture_sheet env row path w :
  path ∈ files w ->
  sheet (after_capture env row path true w).2
  = match upload env, update env with
    | inr (_, web_link), None => <[row := web_link]> (sheet w)
    | _, _ => sheet w
    end.
Proof.
  intros Hin. destruct env as [mr gf ce up ud rf].
  cbn [upload update]. unfold_row. cbn [upload update remove_fails]. simp_world.
  rewrite (bool_decide_eq_true_2 _ Hin). simp_world.
  destruct up as [e | [fid link]]; simp_world.
  - rewrite (bool_decide_eq_true_2 _ Hin). by destruct rf.
  - destruct ud as [e |]; simp_world;
      rewrite (bool_decide_eq_true_2 _ Hin); by destruct rf.
Qed.

Lemma incr_distinct c :
  incr_failed c <> incr_successful c /\ incr_skipped c <> incr_successful c
  /\ c <> incr_successful c.
Proof.
  split_and!; intros H; apply (f_equal successful_screenshots) in H; cbn in H; lia.
Qed.

Lemma process_row_sheet i url env w :
  let r := process_row SCREENSHOTS_DIR start total i url env w in
  sheet r.2 = match link_recorded w start i url env with
              | Some web_link => <[start + Z.of_nat i := web_link]> (sheet w)
              | None => sheet w
              end
  /\ (tally r.2 = incr_successful (tally w) <->
      is_Some (link_recorded w start i url env)).
Proof.
  cbv zeta. unfold link_recorded, reaches_capture.
  destruct (incr_distinct (tally w)) as (Hf & Hk & Hsame).
  destruct (invalid_url url) eqn:Hu.
  { rewrite (process_row_invalid _ _ _ _ _ _ _ Hu). cbn [fst snd tally sheet negb andb].
    split; [done |]. split; [done | by intros [? ?]]. }
  destruct (marked_processed w env (start + Z.of_nat i)) eqn:Hm.
  { unfold marked_processed in Hm.
    destruct (marker_read env) eqn:Hmr; [done |].
    destruct (sheet w !! (start + Z.of_nat i)) as [v |] eqn:Hv; [| done].
    rewrite (process_row_marked _ _ _ _ _ _ _ v Hu Hmr Hv Hm).
    cbn [fst snd tally sheet negb andb].
    split; [done |]. split; [done | by intros [? ?]]. }
  destruct (generate_screenshot_filename env) as [e | n] eqn:Hn.
  { pose proof (process_row_aborts SCREENSHOTS_DIR start total i url env w e Hu Hm Hn)
      as (_ & Ht & _ & Hs & _).
    cbv zeta in Ht, Hs. rewrite Ht, Hs. cbn [negb andb].
    split; [done |]. split; [done | by intros [? ?]]. }
  cbn [negb andb].
  pose proof (process_row_reaches SCREENSHOTS_DIR start total i url env w n Hu Hm Hn)
    as (_ & Ht & _). cbv zeta in Ht. rewrite Ht. clear Ht.
  (* the sheet: run the iteration again, this time watching the cell *)
  cbv [process_row]. unfold_monad. rewrite Hu.
  set (w0 := with_events _ w).
  pose proof (is_url_processed_spec (marker_read env) (start + Z.of_nat i) w0)
    as (Hr1 & _ & Hs1 & _ & _ & Hf1 & _).
  destruct (is_url_processed _ _ w0) as [r1 w1]. cbn [fst snd] in *. subst r1.
  change (sheet w0) with (sheet w) in *.
  unfold marked_processed in Hm. rewrite Hm, Hn.
  set (p := OsPath.join SCREENSHOTS_DIR n).
  pose proof (take_playwright_screenshot_spec (capture env) url p w1)
    as (Hr2 & _ & Hs2 & _ & _ & Hf2 & _).
  destruct (take_playwright_screenshot _ _ _ w1) as [r2 w2]. cbn [fst snd] in *. subst r2.
  destruct (captured (capture env)) eqn:Hc; cbn [andb].
  - assert (Hin : p ∈ files w2).
    { rewrite (Hf2 eq_refl). apply elem_of_union_l. by apply elem_of_singleton. }
    pose proof (after_capture_sheet env (start + Z.of_nat i) p w2 Hin) as Hs3.
    pose proof (after_capture_done env (start + Z.of_nat i) p w2 Hin) as (Hr3 & _).
    cbv zeta in Hr3.
    destruct (after_capture _ _ _ true w2) as [r3 w3]. cbn [fst snd] in *. subst r3.
    assert (Hsheet : sheet w3 = match upload env, update env with
                                | inr (_, web_link), None =>
                                    <[start + Z.of_nat i := web_link]> (sheet w)
                                | _, _ => sheet w
                                end).
    { rewrite Hs3, Hs2, Hs1. done. }
    split.
    + destruct (S i <? total)%nat; simp_world; rewrite Hsheet;
        (destruct (upload env) as [e | [fid link]]; [done |]); by destruct (update env).
    + unfold recorded.
      destruct (upload env) as [e | [fid link]]; [split; [done | by intros [? ?]] |].
      destruct (update env); [split; [done | by intros [? ?]] |].
      split; [by eexists | done].
  - rewrite after_capture_failed. split.
    + destruct (S i <? total)%nat; simp_world; by rewrite Hs2, Hs1.
    + split; [done | by intros [? ?]].
Qed.

End MarkerFacts.

Section FrameFacts.

Variable SCREENSHOTS_DIR : pystr.
Variable start : Z.
Variable total : nat.

Lemma process_row_pages i url env w :
  let r := process_row SCREENSHOTS_DIR start total i url env w in
  pages r.2 = pages w \/ pages r.2 = pages w ++ [true].
Proof.
  cbv zeta.
  destruct (invalid_url url) eqn:Hu.
  { rewrite (process_row_invalid _ _ _ _ _ _ _ Hu). by left. }
  destruct (marked_processed w env (start + Z.of_nat i)) eqn:Hm.
  { unfold marked_processed in Hm.
    destruct (marker_read env) eqn:Hmr; [done |].
    destruct (sheet w !! (start + Z.of_nat i)) as [v |] eqn:Hv; [| done].
    rewrite (process_row_marked _ _ _ _ _ _ _ v Hu Hmr Hv Hm). by left. }
  destruct (generate_screenshot_filename env) as [e | n] eqn:Hn.
  { pose proof (process_row_aborts SCREENSHOTS_DIR start total i url env w e Hu Hm Hn)
      as (_ & _ & _ & _ & Hp). by left. }
  pose proof (process_row_reaches SCREENSHOTS_DIR start total i url env w n Hu Hm Hn)
    as (_ & _ & _ & Hp & _). cbv zeta in Hp. rewrite Hp.
  destruct (new_page (capture env)); auto.
Qed.

Lemma process_row_other_cells i url env w row' :
  row' <> start + Z.of_nat i ->
  sheet (process_row SCREENSHOTS_DIR start total i url env w).2 !! row' = sheet w !! row'.
Proof.
  intros Hne. destruct (process_row_sheet SCREENSHOTS_DIR start total i url env w) as (-> & _).
  destruct (link_recorded _ _ _ _ _); [by rewrite lookup_insert_ne | done].
Qed.

Lemma process_rows_frame rows : forall i w,
  let r := process_rows SCREENSHOTS_DIR start total i rows w in
  (Forall (fun closed => closed = true) (pages w) ->
   Forall (fun closed => closed = true) (pages r.2))
  /\ (forall row', row' < start + Z.of_nat i \/ start + Z.of_nat i + Z.of_nat (length rows) <= row' ->
        sheet r.2 !! row' = sheet w !! row').
Proof.
  induction rows as [| [url env] rest IH]; intros i w; [by split |].
  cbn [process_rows]. unfold_monad.
  pose proof (process_row_pages i url env w) as Hp.
  pose proof (process_row_other_cells i url env w) as Hs.
  cbv zeta in Hp.
  destruct (process_row _ _ _ i url env w) as [[e | []] w1]; cbn [fst snd] in *.
  - split.
    + intros Hall. destruct Hp as [-> | ->]; [done |]. apply Forall_app. by split; [| constructor].
    + intros row' Hr. apply Hs. cbn [length] in Hr. lia.
  - specialize (IH (S i) w1). cbv zeta in IH. destruct IH as (IHp & IHs). split.
    + intros Hall. apply IHp. destruct Hp as [-> | ->]; [done |].
      apply Forall_app. by split; [| constructor].
    + intros row' Hr. rewrite IHs by (cbn [length] in Hr; lia).
      apply Hs. cbn [length] in Hr. lia.
Qed.

End FrameFacts.

Lemma main_frame dir range rows w :
  let r := main dir range rows w in
  (Forall (fun closed => closed = true) (pages w) ->
   Forall (fun closed => closed = true) (pages r.2))
  /\ (forall row',
        match range with
        | Some start => row' < start \/ start + Z.of_nat (length rows) <= row'
        | None => True
        end ->
        sheet r.2 !! row' = sheet w !! row').
Proof.
  unfold main. cbv zeta. rewrite length_fmap.
  destruct rows as [| [url env] rest]; [by split |].
  cbn [fmap list_fmap]. unfold_monad. cbn [fst snd].
  destruct range as [start |]; [| by split].
  pose proof (process_rows_frame dir start (length ((url, env) :: rest))
                ((url, env) :: rest) 0 (with_tally no_counts w)) as (Hp & Hs).
  cbv zeta in Hp, Hs.
  destruct (process_rows _ _ _ 0 _ _) as [[e | []] w1]; cbn [fst snd] in *; simp_world.
  all: split; [exact Hp |].
  all: intros row' Hr; apply Hs; cbn [length] in *; lia.
Qed.

(** *** Markers, pages and cells *)

(** The marker cell of a row is written exactly when the row is counted
    as a success: an iteration changes column C only by writing the Drive
    link of its own row, which it does if and only if it increments
    the success counter; every other outcome leaves the sheet as it was. *)
Theorem marker_written_iff_success (SCREENSHOTS_DIR : pystr) (start_row : Z)
    (total_urls i : nat) (url : pystr) (env : row_env) (w : world) :
  let r := process_row SCREENSHOTS_DIR start_row total_urls i url env w in
  sheet r.2 = match link_recorded w start_row i url env with
              | Some web_link => <[start_row + Z.of_nat i := web_link]> (sheet w)
              | None => sheet w
              end
  /\ (tally r.2 = incr_successful (tally w) <->
      is_Some (link_recorded w start_row i url env)).
Proof. apply process_row_sheet. Qed.

(** A row that was recorded with a Drive link is skipped when it is
    processed again (a second run over the same sheet), provided its URL is
    still valid and the cell can be read. *)
Theorem recorded_row_skipped_next_time (SCREENSHOTS_DIR : pystr) (start_row : Z)
    (total_urls total_urls' i : nat) (url url' : pystr) (env env' : row_env) (w : world)
    (web_link : pystr) :
  link_recorded w start_row i url env = Some web_link ->
  is_drive_link web_link = true ->
  invalid_url url' = false ->
  marker_read env' = None ->
  let w1 := (process_row SCREENSHOTS_DIR start_row total_urls i url env w).2 in
  process_row SCREENSHOTS_DIR start_row total_urls' i url' env' w1 =
    (inr tt,
     {| jar := jar w1; sheet := sheet w1; files := files w1; pages := pages w1;
        tally := incr_skipped (tally w1);
        events := EvLog INFO SkippingAlreadyProcessed
                  :: EvSheetGet (start_row + Z.of_nat i)
                  :: EvLog INFO (ProcessingURL (S i) total_urls') :: events w1 |}).
Proof.
  intros Hl Hd Hu Hm. cbv zeta.
  apply (process_row_marked _ _ _ _ _ _ _ web_link); try done.
  destruct (process_row_sheet SCREENSHOTS_DIR start_row total_urls i url env w) as (-> & _).
  rewrite Hl. apply lookup_insert_eq.
Qed.

Lemma recorded_row_skipped_next_time_witness :
  let w1 := (process_row (lit "screenshots") 2 3 0 (lit "https://a.example/")
               (Sample.row_with "a.png" Sample.browser_ok) empty_world).2 in
  process_row (lit "screenshots") 2 1 0 (lit "https://a.example/")
    (Sample.row_with "a2.png" Sample.browser_ok) w1 =
    (inr tt,
     {| jar := jar w1; sheet := sheet w1; files := files w1; pages := pages w1;
        tally := incr_skipped (tally w1);
        events := EvLog INFO SkippingAlreadyProcessed
                  :: EvSheetGet (2 + Z.of_nat 0)
                  :: EvLog INFO (ProcessingURL 1 1) :: events w1 |}).
Proof.
  apply (recorded_row_skipped_next_time (lit "screenshots") 2 3 1 0 (lit "https://a.example/")
           (lit "https://a.example/") (Sample.row_with "a.png" Sample.browser_ok)
           (Sample.row_with "a2.png" Sample.browser_ok) empty_world Sample.drive_link);
    reflexivity.
Defined.



(** A run writes only marker cells of its own rows: a cell of column C
    above the start row or below the last URL's row is the same after the
    run as before. *)
Theorem only_own_marker_cells_written (SCREENSHOTS_DIR : pystr) (start_row : Z)
    (rows : list (pystr * row_env)) (w : world) (row' : Z) :
  row' < start_row \/ start_row + Z.of_nat (length rows) <= row' ->
  sheet (main SCREENSHOTS_DIR (Some start_row) rows w).2 !! row' = sheet w !! row'.
Proof.
  intros H. by apply (main_frame SCREENSHOTS_DIR (Some start_row) rows w).
Qed.

Lemma only_own_marker_cells_written_witness :
  sheet (main (lit "screenshots") (Some 2) Sample.three_rows Sample.sheet_with_link).2 !! 7
  = sheet Sample.sheet_with_link !! 7.
Proof.
  apply (only_own_marker_cells_written (lit "screenshots") 2 Sample.three_rows
           Sample.sheet_with_link 7).
  right. vm_compute. discriminate.
Defined.


(** *** Files, uploads and marker reads *)



(** [upload_file] on a path that does not exist raises FileNotFoundError
    without calling Drive: it logs the missing file and the error, and
    changes nothing else. *)
Theorem upload_of_missing_file_raises (api : exn + (pystr * pystr)) (file_path : pystr)
    (w : world) :
  file_path ∉ files w ->
  upload_file api file_path w =
    (inl FileNotFoundError,
     with_events (EvLog ERROR (ErrorUploading FileNotFoundError)
                  :: EvLog ERROR FileToUploadNotFound :: events w) w).
Proof.
  intros Hnot. unfold upload_file, path_exists. unfold_monad.
  by rewrite (bool_decide_eq_false_2 _ Hnot).
Qed.

Lemma upload_of_missing_file_raises_witness :
  upload_file (inr (lit "1", Sample.drive_link)) (lit "screenshots/a.png") empty_world =
    (inl FileNotFoundError,
     with_events (EvLog ERROR (ErrorUploading FileNotFoundError)
                  :: EvLog ERROR FileToUploadNotFound :: events empty_world) empty_world).
Proof.
  apply (upload_of_missing_file_raises (inr (lit "1", Sample.drive_link))
           (lit "screenshots/a.png") empty_world).
  apply not_elem_of_empty.
Defined.



(** ** [read_urls] *)

Lemma read_urls_cons row values :
  read_urls (row :: values)
  = if dropped_row row then read_urls values
    else match row with c :: _ => c :: read_urls values | [] => read_urls values end.
Proof.
  unfold read_urls, dropped_row. cbn [omap list_omap].
  destruct row as [| c rest]; [done |]. by destruct (strip c).
Qed.


(** *** Rows and indices *)



(** When no row of the range is empty or blank, [read_urls] returns the
    first cell of every row, in order: the i-th URL is that of the i-th
    row, and the row numbers of the loop are the right ones. *)
Theorem read_urls_aligned_without_blank_rows (values : list (list pystr)) :
  Forall (fun row => dropped_row row = false) values ->
  length (read_urls values) = length values
  /\ forall i row, values !! i = Some row -> read_urls values !! i = head row.
Proof.
  induction values as [| row values IH]; intros Hall; [by split |].
  apply Forall_cons in Hall as [Hd Hall]. destruct (IH Hall) as (Hlen & Hidx).
  rewrite read_urls_cons, Hd. destruct row as [| c cells]; [done |].
  split; [cbn [length]; by rewrite Hlen |].
  intros [| i] row Hi.
  - by injection Hi as <-.
  - by apply Hidx.
Qed.

Lemma read_urls_aligned_without_blank_rows_witness :
  length (read_urls [[lit "https://a.example/"]; [lit " http://b.example/ "; lit "x"]])
  = length [[lit "https://a.example/"]; [lit " http://b.example/ "; lit "x"]]
  /\ forall i row,
       [[lit "https://a.example/"]; [lit " http://b.example/ "; lit "x"]] !! i = Some row ->
       read_urls [[lit "https://a.example/"]; [lit " http://b.example/ "; lit "x"]] !! i
       = head row.
Proof.
  apply (read_urls_aligned_without_blank_rows
           [[lit "https://a.example/"]; [lit " http://b.example/ "; lit "x"]]).
  repeat constructor.
Defined.

(** ** More on the cookie translator *)

Section LoadFacts.

Variable float_of_str : pystr -> option spec_float.

Lemma convert_cookie_world sc w :
  let r := convert_cookie float_of_str sc w in
  jar r.2 = jar w /\ emitted is_plain_log (events w) (events r.2).
Proof.
  cbv zeta. destruct sc as [| | | | | | d]; try (split; [done | emitted_tac]).
  destruct (missing_name_or_value d) eqn:Hm.
  - rewrite (convert_cookie_skipped _ _ _ Hm). split; [done | emitted_tac].
  - cbn [convert_cookie]. rewrite Hm.
    destruct (valid_samesite_total d w) as (ss & w1 & Hss & Hj & He).
    unfold_monad. rewrite Hss.
    destruct (negb (is_None (dict_get d (lit "expirationDate")))).
    + destruct (py_float _ _); [done |]. by destruct (normalized_domain _).
    + by destruct (normalized_domain _).
Qed.

Lemma convert_cookie_raises sc w :
  converts float_of_str sc = false ->
  exists e, (convert_cookie float_of_str sc w).1 = inl e.
Proof.
  intros Hc. destruct sc as [| | | | | | d]; try by eexists.
  destruct (missing_name_or_value d) eqn:Hm.
  { cbn [converts] in Hc. by rewrite Hm in Hc. }
  pose proof (convert_cookie_kept float_of_str d w Hm) as Hk.
  destruct (convert_cookie float_of_str (JObj d) w) as [[e | [pc |]] w']; cbn [fst].
  - by eexists.
  - destruct Hk as (_ & _ & Hc' & _). congruence.
  - done.
Qed.

Lemma convert_cookies_world cookies : forall acc w,
  let r := convert_cookies float_of_str cookies acc w in
  jar r.2 = jar w /\ emitted is_plain_log (events w) (events r.2).
Proof.
  induction cookies as [| sc rest IH]; intros acc w; [split; [done | constructor] |].
  cbn [convert_cookies]. unfold mbind, M_bind.
  pose proof (convert_cookie_world sc w) as (Hj & He). cbv zeta in Hj, He.
  destruct (convert_cookie float_of_str sc w) as [[e | r] w1]; cbn [fst snd] in *; [done |].
  specialize (IH (match r with Some pc => acc ++ [pc] | None => acc end) w1).
  cbv zeta in IH. destruct IH as (IHj & IHe).
  split; [congruence | by eapply emitted_trans].
Qed.

Lemma convert_cookies_raises cookies : forall acc w,
  Exists (fun sc => converts float_of_str sc = false) cookies ->
  exists e, (convert_cookies float_of_str cookies acc w).1 = inl e.
Proof.
  induction cookies as [| sc rest IH]; intros acc w Hex; [by apply Exists_nil in Hex |].
  cbn [convert_cookies]. unfold mbind, M_bind.
  apply Exists_cons in Hex as [Hsc | Hrest].
  - destruct (convert_cookie_raises sc w Hsc) as (e & He).
    destruct (convert_cookie float_of_str sc w) as [[e' | r] w1]; cbn [fst] in *;
      [by eexists | done].
  - destruct (convert_cookie float_of_str sc w) as [[e' | r] w1]; cbn [fst];
      [by eexists | by apply IH].
Qed.

Lemma handed_over_one_more ev w w' :
  events w' = ev :: events w ->
  cookies_handed_over w'
  = cookies_handed_over w ++ match handed ev with Some p => [p] | None => [] end.
Proof. intros H. by rewrite (cookies_handed_over_cons ev w' (events w) H). Qed.

(** [load_playwright_cookies] never raises, whatever the file holds and
    whatever the browser answers: every exception is caught and logged.
    Either the cookie jar is left as it was, or the browser accepted one
    non-empty list of cookies, the only one handed over, and the jar grew
    by exactly that list. *)
Theorem load_cookies_never_raises (file : cookies_file) (refused : option exn)
    (w : world) :
  let r := load_playwright_cookies float_of_str file refused w in
  r.1 = inr tt
  /\ (jar r.2 = jar w
      \/ exists pcs, pcs <> [] /\ refused = None /\ jar r.2 = jar w ++ pcs
                     /\ cookies_handed_over r.2 = cookies_handed_over w ++ [pcs]).
Proof.
  cbv zeta. unfold load_playwright_cookies, add_cookies.
  destruct file as [| e | j]; unfold_monad; simp_world; [by auto | by auto |].
  destruct j as [| | | | | cookies |]; simp_world; try by auto.
  pose proof (convert_cookies_world cookies [] w) as (Hj & He). cbv zeta in Hj, He.
  destruct (convert_cookies float_of_str cookies [] w) as [[e | pcs] w1];
    cbn [fst snd] in *; simp_world; [by auto |].
  destruct pcs as [| pc pcs]; simp_world; [by auto |].
  destruct refused as [e |]; simp_world; [by auto |].
  split; [done |]. right. exists (pc :: pcs). split_and!; [done | done | by rewrite Hj |].
  apply handed_over_plain_log in He.
  unfold cookies_handed_over, trace. simp_world. cbn [rev].
  rewrite !omap_app. change (omap _ (rev (events w1))) with (omap handed (rev (events w1))).
  rewrite He. cbn. by rewrite app_nil_r.
Qed.

(** The translation is all or nothing: when the conversion of one record
    of the file raises (a record that is no dict, an expiry that is no
    number, a domain that is no string), no cookie of the file is handed
    to the browser, the jar is unchanged, and the last thing logged is the
    error. *)
Theorem unconvertible_record_loads_nothing (cookies : list json) (refused : option exn)
    (w : world) :
  Exists (fun sc => converts float_of_str sc = false) cookies ->
  let r := load_playwright_cookies float_of_str (Parsed (JArr cookies)) refused w in
  cookies_handed_over r.2 = cookies_handed_over w
  /\ jar r.2 = jar w
  /\ exists e, head (events r.2) = Some (EvLog ERROR (ErrorLoadingCookies e)).
Proof.
  intros Hex. cbv zeta. unfold load_playwright_cookies. unfold_monad.
  destruct (convert_cookies_raises cookies [] w Hex) as (e & He).
  pose proof (convert_cookies_world cookies [] w) as (Hj & Hem). cbv zeta in Hj, Hem.
  destruct (convert_cookies float_of_str cookies [] w) as [[e' | pcs] w1];
    cbn [fst snd] in *; [| done].
  simp_world. split_and!; [| done | by eexists].
  apply handed_over_plain_log in Hem.
  unfold cookies_handed_over, trace. simp_world. cbn [rev].
  rewrite omap_app. change (omap _ (rev (events w1))) with (omap handed (rev (events w1))).
  rewrite Hem. cbn. by rewrite app_nil_r.
Qed.

Lemma normalized_domain_value d v :
  normalized_domain d = inr v ->
  v = match d with
      | JStr s => JStr (if startswith s (lit ".") then tail s else s)
      | v => v
      end.
Proof.
  unfold normalized_domain. destruct (truthy d) eqn:Ht.
  - destruct d; try discriminate. destruct (startswith _ _); by intros [= <-].
  - intros [= <-]. destruct d; try done. by destruct s.
Qed.

(** The other fields of a translated cookie: the domain loses one leading
    dot (and only one), the path defaults to "/", httpOnly and secure
    default to False, and the expiry is present exactly when the record
    has a non-null expirationDate, as its value converted to a float. *)
Theorem converted_cookie_fields (d : gmap pystr json) (w : world) :
  missing_name_or_value d = false ->
  converts float_of_str (JObj d) = true ->
  exists pc w',
    convert_cookie float_of_str (JObj d) w = (inr (Some pc), w')
    /\ name pc = dict_get d (lit "name")
    /\ value pc = dict_get d (lit "value")
    /\ domain pc = match dict_get d (lit "domain") with
                   | JStr s => JStr (if startswith s (lit ".") then tail s else s)
                   | v => v
                   end
    /\ path pc = dict_get_default d (lit "path") (JStr (lit "/"))
    /\ httpOnly pc = dict_get_default d (lit "httpOnly") (JBool false)
    /\ secure pc = dict_get_default d (lit "secure") (JBool false)
    /\ (is_None (dict_get d (lit "expirationDate")) = true -> expires pc = None)
    /\ (is_None (dict_get d (lit "expirationDate")) = false ->
        exists f, py_float float_of_str (dict_get d (lit "expirationDate")) = inr f
                  /\ expires pc = Some f).
Proof.
  intros Hm Hc. cbn [converts] in Hc. rewrite Hm in Hc. cbn [orb] in Hc.
  apply andb_prop in Hc as [Hexp Hdom].
  cbn [convert_cookie]. rewrite Hm.
  destruct (valid_samesite_total d w) as (ss & w1 & Hss & _).
  unfold_monad. rewrite Hss.
  destruct (normalized_domain (dict_get d (lit "domain"))) as [e | dom] eqn:Hd;
    [discriminate Hdom |].
  apply normalized_domain_value in Hd.
  destruct (is_None (dict_get d (lit "expirationDate"))) eqn:Hn; cbn [negb orb] in *.
  - eexists _, _. split; [reflexivity |].
    cbn [name value domain path httpOnly secure expires]. split_and!; try done.
    subst dom. by destruct (dict_get d (lit "domain")).
  - destruct (py_float float_of_str (dict_get d (lit "expirationDate"))) as [e | f];
      [discriminate Hexp |].
    eexists _, _. split; [reflexivity |].
    cbn [name value domain path httpOnly secure expires]. split_and!; try done.
    + subst dom. by destruct (dict_get d (lit "domain")).
    + by eexists.
Qed.

End LoadFacts.

Lemma unconvertible_record_loads_nothing_witness :
  let r := load_playwright_cookies (fun _ => None)
             (Parsed (JArr [Sample.session_cookie; JStr (lit "sid=abc")])) None
             empty_world in
  cookies_handed_over r.2 = cookies_handed_over empty_world
  /\ jar r.2 = jar empty_world
  /\ exists e, head (events r.2) = Some (EvLog ERROR (ErrorLoadingCookies e)).
Proof.
  apply (unconvertible_record_loads_nothing (fun _ => None)
           [Sample.session_cookie; JStr (lit "sid=abc")] None empty_world).
  apply Exists_cons_tl, Exists_cons_hd. reflexivity.
Defined.

Lemma converted_cookie_fields_witness :
  let d := Sample.obj [("name", JStr (lit "sid")); ("value", JStr (lit "abc"));
                       ("domain", JStr (lit "..example.com"));
                       ("expirationDate", JInt 1700000000)]%string in
  exists pc w',
    convert_cookie (fun _ => None) (JObj d) empty_world = (inr (Some pc), w')
    /\ name pc = dict_get d (lit "name")
    /\ value pc = dict_get d (lit "value")
    /\ domain pc = match dict_get d (lit "domain") with
                   | JStr s => JStr (if startswith s (lit ".") then tail s else s)
                   | v => v
                   end
    /\ path pc = dict_get_default d (lit "path") (JStr (lit "/"))
    /\ httpOnly pc = dict_get_default d (lit "httpOnly") (JBool false)
    /\ secure pc = dict_get_default d (lit "secure") (JBool false)
    /\ (is_None (dict_get d (lit "expirationDate")) = true -> expires pc = None)
    /\ (is_None (dict_get d (lit "expirationDate")) = false ->
        exists f, py_float (fun _ => None) (dict_get d (lit "expirationDate")) = inr f
                  /\ expires pc = Some f).
Proof.
  apply (converted_cookie_fields (fun _ => None)
           (Sample.obj [("name", JStr (lit "sid")); ("value", JStr (lit "abc"));
                        ("domain", JStr (lit "..example.com"));
                        ("expirationDate", JInt 1700000000)]%string) empty_world);
    reflexivity.
Defined.

(** ** Paths and file names *)

Lemma no_sep_app s t : no_sep (s ++ t) = no_sep s && no_sep t.
Proof. apply forallb_app. Qed.

Lemma no_sep_rev s : no_sep (rev s) = no_sep s.
Proof.
  induction s as [| c s IH]; [done |].
  cbn [rev]. rewrite no_sep_app, IH. cbn. rewrite andb_true_r. apply andb_comm.
Qed.

Lemma upto_sep_id s : no_sep s = true -> OsPath.upto_sep s = s.
Proof.
  induction s as [| c s IH]; [done |]. cbn. intros [Hc Hs]%andb_prop.
  apply negb_true_iff in Hc. rewrite Hc. by rewrite IH.
Qed.

Lemma upto_sep_app s c t :
  no_sep s = true -> OsPath.is_sep c = true -> OsPath.upto_sep (s ++ c :: t) = s.
Proof.
  intros Hs Hc. induction s as [| x s IH]; cbn.
  - by rewrite Hc.
  - cbn in Hs. apply andb_prop in Hs as [Hx Hs]. apply negb_true_iff in Hx.
    rewrite Hx. by rewrite IH.
Qed.

Lemma no_sep_upto_sep p : no_sep (OsPath.upto_sep p) = true.
Proof.
  induction p as [| c p IH]; [done |]. cbn.
  destruct (OsPath.is_sep c) eqn:Hc; [done |]. cbn. by rewrite Hc.
Qed.

Lemma no_sep_basename p : no_sep (OsPath.basename p) = true.
Proof. unfold OsPath.basename. rewrite no_sep_rev. apply no_sep_upto_sep. Qed.

Lemma rev_last_cons (a : pystr) :
  a <> [] -> rev a = List.last a 0%N :: rev (removelast a).
Proof.
  intros Ha. rewrite (app_removelast_last 0%N Ha) at 1.
  by rewrite rev_app_distr.
Qed.

Lemma no_sep_not_absolute b : no_sep b = true -> startswith b [OsPath.sep] = false.
Proof.
  destruct b as [| c b]; [done |]. intros Hb.
  cbn [no_sep forallb] in Hb. apply andb_prop in Hb as [Hc _].
  apply negb_true_iff in Hc. unfold OsPath.is_sep in Hc.
  cbn [startswith]. by rewrite N.eqb_sym, Hc.
Qed.

Lemma basename_join a b : no_sep b = true -> OsPath.basename (OsPath.join a b) = b.
Proof.
  intros Hb. unfold OsPath.join. rewrite (no_sep_not_absolute b Hb).
  assert (Hid : OsPath.basename b = b).
  { unfold OsPath.basename. rewrite upto_sep_id by (by rewrite no_sep_rev).
    apply rev_involutive. }
  destruct a as [| x a]; [exact Hid |].
  set (a' := x :: a). assert (Ha : a' <> []) by done. clearbody a'.
  unfold OsPath.basename.
  destruct (OsPath.is_sep (List.last a' 0%N)) eqn:Hl.
  - rewrite rev_app_distr, (rev_last_cons a' Ha).
    rewrite upto_sep_app; [apply rev_involutive | by rewrite no_sep_rev | done].
  - rewrite rev_app_distr. cbn [rev]. rewrite <- app_assoc. cbn [app].
    rewrite upto_sep_app; [apply rev_involutive | by rewrite no_sep_rev | done].
Qed.

(** The name of the diagnostic screenshot is the name of the intended
    screenshot with the prefix error_, so the two paths always differ:
    saving the diagnostic screenshot never overwrites a screenshot, and
    the removal of the uploaded screenshot never removes a diagnostic
    one. *)
Theorem error_screenshot_is_another_file (output_path : pystr) :
  OsPath.basename (error_screenshot_path output_path)
  = lit "error_" ++ OsPath.basename output_path
  /\ error_screenshot_path output_path <> output_path.
Proof.
  assert (H : OsPath.basename (error_screenshot_path output_path)
              = lit "error_" ++ OsPath.basename output_path).
  { unfold error_screenshot_path. apply basename_join.
    rewrite no_sep_app, no_sep_basename. done. }
  split; [exact H |].
  intros Heq. rewrite Heq in H. apply (f_equal length) in H.
  rewrite length_app in H. cbn in H. lia.
Qed.

Section FilenameFacts.

Variable isalnum : N -> bool.

Lemma is_safe_no_sep c : PlaywrightUtils.is_safe isalnum c = true -> OsPath.is_sep c = false.
Proof.
  unfold OsPath.is_sep, OsPath.sep. destruct (N.eqb_spec c 47) as [-> |]; [| done].
  by vm_compute.
Qed.

Lemma sanitize_safe s : forallb (PlaywrightUtils.is_safe isalnum) (PlaywrightUtils.sanitize isalnum s) = true.
Proof.
  unfold PlaywrightUtils.sanitize. induction s as [| c s IH]; [done |].
  cbn [List.map forallb]. rewrite IH, andb_true_r.
  destruct (PlaywrightUtils.is_safe isalnum c) eqn:Hc; [done |]. by vm_compute.
Qed.

Lemma forallb_lstrip_char (P : N -> bool) c s :
  forallb P s = true -> forallb P (PlaywrightUtils.lstrip_char c s) = true.
Proof.
  induction s as [| x s IH]; [done |]. cbn [PlaywrightUtils.lstrip_char].
  destruct (x =? c)%N; [| done]. cbn. intros [_ Hs]%andb_prop. by apply IH.
Qed.

Lemma forallb_rev (P : N -> bool) s : forallb P (rev s) = forallb P s.
Proof.
  induction s as [| c s IH]; [done |].
  cbn [rev]. rewrite forallb_app, IH. cbn. rewrite andb_true_r. apply andb_comm.
Qed.

Lemma forallb_strip_char (P : N -> bool) c s :
  forallb P s = true -> forallb P (PlaywrightUtils.strip_char c s) = true.
Proof.
  intros H. unfold PlaywrightUtils.strip_char, PlaywrightUtils.rstrip_char.
  rewrite forallb_rev. apply forallb_lstrip_char. rewrite forallb_rev.
  by apply forallb_lstrip_char.
Qed.

Lemma forallb_take (P : N -> bool) n s :
  forallb P s = true -> forallb P (take n s) = true.
Proof.
  revert n. induction s as [| c s IH]; intros [| n]; try done.
  cbn. intros [Hc Hs]%andb_prop. by rewrite Hc, IH.
Qed.

Lemma length_lstrip_char c s : (length (PlaywrightUtils.lstrip_char c s) <= length s)%nat.
Proof.
  induction s as [| x s IH]; [done |]. cbn [PlaywrightUtils.lstrip_char].
  destruct (x =? c)%N; cbn; lia.
Qed.

Lemma length_strip_char c s : (length (PlaywrightUtils.strip_char c s) <= length s)%nat.
Proof.
  unfold PlaywrightUtils.strip_char, PlaywrightUtils.rstrip_char.
  rewrite length_rev.
  etransitivity; [apply length_lstrip_char |]. rewrite length_rev.
  apply length_lstrip_char.
Qed.

Lemma lstrip_char_head c s : head (PlaywrightUtils.lstrip_char c s) <> Some c.
Proof.
  induction s as [| x s IH]; [done |]. cbn [PlaywrightUtils.lstrip_char].
  destruct (N.eqb_spec x c); [done |]. cbn. congruence.
Qed.

Lemma lstrip_char_fixed c s :
  head s <> Some c -> PlaywrightUtils.lstrip_char c s = s.
Proof.
  destruct s as [| x s]; [done |]. cbn. intros H.
  destruct (N.eqb_spec x c); congruence.
Qed.

Lemma head_rev_last (s : pystr) : head (rev s) = last s.
Proof.
  induction s as [| x s IH] using rev_ind; [done |].
  by rewrite rev_app_distr, last_snoc.
Qed.

Lemma lstrip_char_last c s :
  last s <> Some c -> last (PlaywrightUtils.lstrip_char c s) <> Some c.
Proof.
  induction s as [| x s IH]; [done |]. cbn [PlaywrightUtils.lstrip_char].
  destruct (N.eqb_spec x c) as [-> | Hx]; [| done].
  intros H. apply IH. destruct s; [done |]. by rewrite last_cons_cons in H.
Qed.

Lemma strip_char_ends c s :
  head (PlaywrightUtils.strip_char c s) <> Some c
  /\ last (PlaywrightUtils.strip_char c s) <> Some c.
Proof.
  unfold PlaywrightUtils.strip_char, PlaywrightUtils.rstrip_char. split.
  - rewrite head_rev_last. apply lstrip_char_last.
    rewrite <- head_rev_last, rev_involutive. apply lstrip_char_head.
  - rewrite <- head_rev_last, rev_involutive. apply lstrip_char_head.
Qed.

Lemma url_part_safe netloc path :
  forallb (PlaywrightUtils.is_safe isalnum) (PlaywrightUtils.url_part isalnum netloc path) = true
  /\ (length (PlaywrightUtils.url_part isalnum netloc path) <= 75)%nat.
Proof.
  unfold PlaywrightUtils.url_part. split.
  - do 3 apply forallb_strip_char. apply forallb_take, sanitize_safe.
  - do 3 (etransitivity; [apply length_strip_char |]).
    rewrite length_take. lia.
Qed.

Lemma forallb_safe_no_sep s : forallb (PlaywrightUtils.is_safe isalnum) s = true -> no_sep s = true.
Proof.
  induction s as [| c s IH]; [done |]. cbn [forallb]. intros [Hc Hs]%andb_prop.
  unfold no_sep in *. cbn [forallb]. by rewrite (is_safe_no_sep c Hc), IH.
Qed.

(** The file name of a screenshot is made of the fixed prefix, the time
    stamp, and at most 75 characters of the sanitised URL, each of them a
    word character, a dash or a dot, with no dash at either end. *)
Theorem filename_is_sanitised (timestamp netloc path : pystr) :
  let name := PlaywrightUtils.generate_screenshot_filename isalnum timestamp netloc path in
  let part := PlaywrightUtils.url_part isalnum netloc path in
  name = lit "screenshot_" ++ timestamp ++ lit "_" ++ part ++ lit ".png"
  /\ (length part <= 75)%nat
  /\ (length name <= length timestamp + 91)%nat
  /\ forallb (PlaywrightUtils.is_safe isalnum) part = true
  /\ no_sep part = true
  /\ head part <> Some 0x2D%N
  /\ last part <> Some 0x2D%N.
Proof.
  cbv zeta. destruct (url_part_safe netloc path) as (Hs & Hl).
  split_and!; try done.
  - unfold PlaywrightUtils.generate_screenshot_filename.
    rewrite !length_app. cbn [length lit List.map list_ascii_of_string]. lia.
  - by apply forallb_safe_no_sep.
  - apply strip_char_ends.
  - apply strip_char_ends.
Qed.

(** Whatever the URL, the screenshot is written inside the screenshots
    directory: the generated name has no path separator when the time
    stamp has none, so joining it to the directory keeps the directory
    and the name apart. *)
Theorem screenshot_stays_in_directory (SCREENSHOTS_DIR timestamp netloc path : pystr) :
  no_sep timestamp = true ->
  let name := PlaywrightUtils.generate_screenshot_filename isalnum timestamp netloc path in
  no_sep name = true
  /\ OsPath.basename (OsPath.join SCREENSHOTS_DIR name) = name
  /\ exists d, OsPath.join SCREENSHOTS_DIR name = d ++ name
               /\ (d = SCREENSHOTS_DIR \/ d = SCREENSHOTS_DIR ++ [OsPath.sep]).
Proof.
  intros Ht. cbv zeta.
  assert (Hn : no_sep (PlaywrightUtils.generate_screenshot_filename isalnum
                         timestamp netloc path) = true).
  { unfold PlaywrightUtils.generate_screenshot_filename.
    rewrite !no_sep_app, Ht.
    rewrite (forallb_safe_no_sep _ (proj1 (url_part_safe netloc path))). done. }
  split_and!; [exact Hn | by apply basename_join |].
  unfold OsPath.join. rewrite (no_sep_not_absolute _ Hn).
  destruct SCREENSHOTS_DIR as [| x a]; [exists []; by auto |].
  destruct (OsPath.is_sep _).
  - eexists. split; [reflexivity | by left].
  - exists ((x :: a) ++ [OsPath.sep]). split; [by rewrite <- app_assoc | by right].
Qed.

End FilenameFacts.

Lemma screenshot_stays_in_directory_witness :
  let name := PlaywrightUtils.generate_screenshot_filename (fun _ => false)
                (lit "20240101_120000") (lit "a.example") (lit "/x/../y") in
  no_sep name = true
  /\ OsPath.basename (OsPath.join (lit "screenshots") name) = name
  /\ exists d, OsPath.join (lit "screenshots") name = d ++ name
               /\ (d = lit "screenshots" \/ d = lit "screenshots" ++ [OsPath.sep]).
Proof.
  apply (screenshot_stays_in_directory (fun _ => false) (lit "screenshots")
           (lit "20240101_120000") (lit "a.example") (lit "/x/../y")).
  reflexivity.
Defined.

(** ** The capture and the loop when [page.close()] or [time.sleep()] raise *)

Ltac unfold_unguarded :=
  cbv [Unguarded.take_playwright_screenshot Unguarded.close_page Unguarded.page_close
       navigate_and_capture on_error save_error_screenshot
       context_new_page page_call page_screenshot is_closed];
  unfold_monad.

Lemma unguarded_capture_guarded env url path w :
  Unguarded.take_playwright_screenshot None env url path w
  = take_playwright_screenshot env url path w.
Proof. reflexivity. Qed.

Lemma unguarded_capture_result close_fails env url path w :
  (Unguarded.take_playwright_screenshot close_fails env url path w).1
  = capture_result close_fails env.
Proof.
  destruct close_fails as [e |].
  2: { rewrite unguarded_capture_guarded.
       by pose proof (take_playwright_screenshot_spec env url path w) as (Hr & _). }
  destruct env as [np g c wt ev sc esc].
  unfold capture_result, close_called, captured.
  cbn [new_page goto screenshot click wait_for_timeout evaluate error_screenshot].
  unfold_unguarded.
  cbn [new_page goto screenshot click wait_for_timeout evaluate error_screenshot].
  destruct np.
  all: repeat capture_step.
  all: reflexivity.
Qed.

Lemma captured_with_consent c wt env : captured (with_consent c wt env) = captured env.
Proof. reflexivity. Qed.

Lemma close_called_with_consent c wt env :
  close_called (with_consent c wt env) = true ->
  close_called (with_consent Done Done env) = true.
Proof.
  destruct env as [np g c0 wt0 ev sc esc]. unfold close_called, with_consent.
  cbn [new_page goto screenshot click wait_for_timeout evaluate error_screenshot].
  destruct np, g, c, wt, ev, sc; try done.
Qed.

Lemma captured_causes env :
  captured env = false <->
  (new_page env <> None \/ goto env <> Done \/ screenshot env <> Done).
Proof.
  unfold captured.
  destruct (new_page env), (goto env), (screenshot env); split;
    intros H; try done; try (by left); try (by right; left); try (by right; right);
    destruct H as [H | [H | H]]; done.
Qed.

Lemma close_called_opened env : close_called env = true -> new_page env = None.
Proof. unfold close_called. by destruct (new_page env). Qed.

(** ** Screenshot capture: the consent click *)

(** C7. Whatever the consent click and the wait after it do (succeed,
    time out, fail, lose the page), the capture gives the answer it gives
    when both succeed, with one exception: when [page.close()] raises in
    the [finally], a consent step that lost the page spares that call, and
    the capture answers instead of raising.  So a capture that succeeds
    with a working consent click succeeds with a failing one.  The capture
    returns [False] only when opening the page, the navigation or the
    screenshot failed, it returns [True] in none of these cases, and the
    only exception that leaves it is that of [page.close()]. *)
Theorem consent_click_never_fails_capture (close_fails : option exn) (env : capture_env)
    (url output_path : pystr) (w : world) (c wt : outcome) :
  let result :=
    (Unguarded.take_playwright_screenshot close_fails (with_consent c wt env)
       url output_path w).1 in
  let baseline :=
    (Unguarded.take_playwright_screenshot close_fails (with_consent Done Done env)
       url output_path w).1 in
  (result = baseline
   \/ exists e, close_fails = Some e /\ baseline = inl e /\ result = inr (captured env))
  /\ (baseline = inr true -> result = inr true)
  /\ (result = inr false ->
      new_page env <> None \/ goto env <> Done \/ screenshot env <> Done)
  /\ (new_page env <> None \/ goto env <> Done \/ screenshot env <> Done ->
      result <> inr true)
  /\ (forall e, result = inl e -> close_fails = Some e /\ new_page env = None).
Proof.
  cbv zeta. rewrite !unguarded_capture_result. unfold capture_result.
  rewrite !captured_with_consent.
  pose proof (close_called_with_consent c wt env) as Hmono.
  pose proof (close_called_opened (with_consent c wt env)) as Hopen.
  change (new_page (with_consent c wt env)) with (new_page env) in Hopen.
  pose proof (captured_causes env) as Hcauses.
  destruct close_fails as [e |].
  - destruct (close_called (with_consent c wt env)) eqn:Hc.
    + rewrite (Hmono eq_refl). split_and!; try done.
      * by left.
      * intros e' [= ->]. auto.
    + destruct (close_called (with_consent Done Done env)) eqn:Hb.
      * split_and!; try done.
        -- right. by exists e.
        -- intros [= Hf]. by apply Hcauses.
        -- intros Hwhy. apply Hcauses in Hwhy. rewrite Hwhy. done.
      * split_and!; try done.
        -- by left.
        -- intros [= Hf]. by apply Hcauses.
        -- intros Hwhy. apply Hcauses in Hwhy. rewrite Hwhy. done.
  - split_and!; try done.
    + by left.
    + intros [= Hf]. by apply Hcauses.
    + intros Hwhy. apply Hcauses in Hwhy. rewrite Hwhy. done.
Qed.

(** C7 as stated fails: when the browser context cannot open a page, the
    capture returns [False] although neither the navigation nor the
    screenshot failed (neither was attempted); and when only
    [page.close()] raises, after a navigation and a screenshot that
    succeeded, the capture raises to its caller. *)
Lemma capture_fails_without_navigation_or_screenshot_failure :
  let r := Unguarded.take_playwright_screenshot None browser_without_pages
             (lit "https://a.example/") (lit "screenshots/a.png") empty_world in
  let r' := Unguarded.take_playwright_screenshot (Some PlaywrightError) Sample.browser_ok
              (lit "https://a.example/") (lit "screenshots/a.png") empty_world in
  r.1 = inr false
  /\ goto browser_without_pages = Done
  /\ screenshot browser_without_pages = Done
  /\ existsb is_navigation_or_screenshot (events r.2) = false
  /\ r'.1 = inl PlaywrightError
  /\ goto Sample.browser_ok = Done
  /\ screenshot Sample.browser_ok = Done
  /\ lit "screenshots/a.png" ∈ files r'.2.
Proof.
  cbv zeta. split_and!; reflexivity.
Qed.

(** ** The loop: every row counted *)

Section UnguardedLoop.

Variable SCREENSHOTS_DIR : pystr.
Variable start : Z.
Variable total : nat.

Lemma unguarded_process_row_guarded i url env w :
  Unguarded.process_row SCREENSHOTS_DIR start total None i url env None w
  = process_row SCREENSHOTS_DIR start total i url env w.
Proof. reflexivity. Qed.

Lemma unguarded_process_rows_guarded rows : forall i w,
  Forall (fun r => r.2 = None) rows ->
  Unguarded.process_rows SCREENSHOTS_DIR start total None i rows w
  = process_rows SCREENSHOTS_DIR start total i (guarded_rows rows) w.
Proof.
  induction rows as [| [[url env] close_fails] rest IH]; intros i w Hall; [done |].
  apply Forall_cons in Hall as [Hc Hall]. cbn [snd] in Hc. subst close_fails.
  unfold guarded_rows. cbn [fmap list_fmap fst Unguarded.process_rows process_rows].
  unfold mbind, M_bind. rewrite unguarded_process_row_guarded.
  destruct (process_row _ _ _ i url env w) as [[e | []] w1]; [done |].
  by apply IH.
Qed.

End UnguardedLoop.

(** When file-name generation raises on no row, [page.close()] raises on
    no row and [time.sleep] does not raise, the loop runs to its end and
    every row is counted in exactly one of the three counters: together
    they grow by the number of rows. *)
Theorem loop_counts_every_row_once (SCREENSHOTS_DIR : pystr) (start_row : Z)
    (sleep_fails : option exn) (rows : list (pystr * row_env * option exn)) (w : world) :
  names_all_rows (guarded_rows rows) ->
  Forall (fun r => r.2 = None) rows ->
  sleep_fails = None ->
  let r := Unguarded.process_rows SCREENSHOTS_DIR start_row (length rows) sleep_fails
             0 rows w in
  r.1 = inr tt
  /\ (successful_screenshots (tally r.2) + skipped_urls (tally r.2)
      + failed_screenshots (tally r.2)
      = length rows + (successful_screenshots (tally w) + skipped_urls (tally w)
                       + failed_screenshots (tally w)))%nat.
Proof.
  intros Hnames Hclose ->. cbv zeta.
  rewrite (unguarded_process_rows_guarded _ _ _ rows 0 w Hclose).
  pose proof (process_rows_spec SCREENSHOTS_DIR start_row (length rows)
                (guarded_rows rows) 0 w Hnames) as (Hr & Ht & _).
  cbv zeta in Hr, Ht. split; [exact Hr |].
  unfold total_counted in Ht. unfold guarded_rows in *. rewrite length_fmap in Ht. lia.
Qed.

Lemma loop_counts_every_row_once_witness :
  let rows := [(lit "https://a.example/", Sample.row_with "a.png" Sample.browser_ok, None);
               (lit "ftp://b.example/", Sample.row_with "b.png" Sample.browser_ok, None);
               (lit "http://c.example/", Sample.row_with "c.png" Sample.browser_timeout,
                None)] in
  let r := Unguarded.process_rows (lit "screenshots") 2 (length rows) None 0 rows
             Sample.sheet_with_link in
  r.1 = inr tt
  /\ (successful_screenshots (tally r.2) + skipped_urls (tally r.2)
      + failed_screenshots (tally r.2)
      = length rows + (successful_screenshots (tally Sample.sheet_with_link)
                       + skipped_urls (tally Sample.sheet_with_link)
                       + failed_screenshots (tally Sample.sheet_with_link)))%nat.
Proof.
  apply (loop_counts_every_row_once (lit "screenshots") 2 None
           [(lit "https://a.example/", Sample.row_with "a.png" Sample.browser_ok, None);
            (lit "ftp://b.example/", Sample.row_with "b.png" Sample.browser_ok, None);
            (lit "http://c.example/", Sample.row_with "c.png" Sample.browser_timeout,
             None)] Sample.sheet_with_link).
  - repeat constructor; by eexists.
  - repeat constructor.
  - reflexivity.
Defined.

(** ** The loop: what an exception of the two calls leaves behind *)

Lemma unguarded_capture_world close_fails env url path w :
  let r := Unguarded.take_playwright_screenshot close_fails env url path w in
  jar r.2 = jar w /\ sheet r.2 = sheet w /\ tally r.2 = tally w
  /\ (captured env = true -> files r.2 = {[path]} ∪ files w).
Proof.
  destruct close_fails as [e |].
  2: { rewrite unguarded_capture_guarded.
       pose proof (take_playwright_screenshot_spec env url path w)
         as (_ & Hj & Hs & Ht & _ & Hf & _). by split_and!. }
  destruct env as [np g c wt ev sc esc].
  unfold captured.
  cbn [new_page goto screenshot click wait_for_timeout evaluate error_screenshot].
  unfold_unguarded.
  cbn [new_page goto screenshot click wait_for_timeout evaluate error_screenshot].
  destruct np.
  all: repeat capture_step.
  all: repeat split; try reflexivity; try (intros; discriminate).
Qed.

Section AbortFacts.

Variable SCREENSHOTS_DIR : pystr.
Variable start : Z.
Variable total : nat.

Lemma unguarded_process_row_close sleep_fails i url env w name e :
  invalid_url url = false ->
  marked_processed w env (start + Z.of_nat i) = false ->
  generate_screenshot_filename env = inr name ->
  close_called (capture env) = true ->
  let r := Unguarded.process_row SCREENSHOTS_DIR start total sleep_fails i url env
             (Some e) w in
  r.1 = inl e /\ tally r.2 = tally w /\ sheet r.2 = sheet w
  /\ (captured (capture env) = true ->
      files r.2 = {[OsPath.join SCREENSHOTS_DIR name]} ∪ files w).
Proof.
  intros Hu Hm Hn Hc. cbv zeta.
  cbv [Unguarded.process_row]. unfold_monad. rewrite Hu.
  set (w0 := with_events _ w).
  pose proof (is_url_processed_spec (marker_read env) (start + Z.of_nat i) w0)
    as (Hr1 & Hj1 & Hs1 & Ht1 & Hp1 & Hf1 & He1).
  destruct (is_url_processed _ _ w0) as [r1 w1]. cbn [fst snd] in *.
  subst r1. change (sheet w0) with (sheet w) in *.
  unfold marked_processed in Hm. rewrite Hm. rewrite Hn.
  pose proof (unguarded_capture_result (Some e) (capture env) url
                (OsPath.join SCREENSHOTS_DIR name) w1) as Hr2.
  pose proof (unguarded_capture_world (Some e) (capture env) url
                (OsPath.join SCREENSHOTS_DIR name) w1) as (_ & Hs2 & Ht2 & Hf2).
  cbv zeta in Hs2, Ht2, Hf2. unfold capture_result in Hr2. rewrite Hc in Hr2.
  destruct (Unguarded.take_playwright_screenshot _ _ _ _ w1) as [r2 w2].
  cbn [fst snd] in *. subst r2. cbn [fst snd].
  split_and!; [done | by rewrite Ht2, Ht1 | by rewrite Hs2, Hs1 |].
  intros Hcap. by rewrite (Hf2 Hcap), Hf1.
Qed.

Lemma unguarded_process_row_sleep i url env w name e :
  invalid_url url = false ->
  marked_processed w env (start + Z.of_nat i) = false ->
  generate_screenshot_filename env = inr name ->
  (S i <? total)%nat = true ->
  let r := Unguarded.process_row SCREENSHOTS_DIR start total (Some e) i url env None w in
  r.1 = inl e
  /\ tally r.2 = (if captured (capture env) && recorded env
                  then incr_successful (tally w) else incr_failed (tally w)).
Proof.
  intros Hu Hm Hn Hlt. cbv zeta.
  cbv [Unguarded.process_row Unguarded.time_sleep]. unfold_monad. rewrite Hu.
  set (w0 := with_events _ w).
  pose proof (is_url_processed_spec (marker_read env) (start + Z.of_nat i) w0)
    as (Hr1 & Hj1 & Hs1 & Ht1 & Hp1 & Hf1 & He1).
  destruct (is_url_processed _ _ w0) as [r1 w1]. cbn [fst snd] in *.
  subst r1. change (sheet w0) with (sheet w) in *.
  unfold marked_processed in Hm. rewrite Hm. rewrite Hn.
  rewrite unguarded_capture_guarded.
  pose proof (take_playwright_screenshot_spec (capture env) url
                (OsPath.join SCREENSHOTS_DIR name) w1)
    as (Hr2 & Hj2 & Hs2 & Ht2 & Hp2 & Hf2 & He2).
  destruct (take_playwright_screenshot _ _ _ w1) as [r2 w2]. cbn [fst snd] in *.
  subst r2. change (tally w0) with (tally w) in *.
  destruct (captured (capture env)) eqn:Hc.
  - specialize (Hf2 eq_refl).
    assert (Hin : OsPath.join SCREENSHOTS_DIR name ∈ files w2).
    { rewrite Hf2. apply elem_of_union_l. by apply elem_of_singleton. }
    pose proof (after_capture_done env (start + Z.of_nat i)
                  (OsPath.join SCREENSHOTS_DIR name) w2 Hin) as (Hr3 & Ht3 & _).
    destruct (after_capture _ _ _ true w2) as [r3 w3]. cbn [fst snd] in *.
    subst r3. rewrite Hlt. simp_world. split; [done |].
    rewrite Ht3, Ht2, Ht1. done.
  - rewrite after_capture_failed. rewrite Hlt. simp_world. split; [done |].
    by rewrite Ht2, Ht1.
Qed.

End AbortFacts.

(** An exception of [page.close()] leaves the loop: the row is counted in
    none of the three counters, no later row is processed, and the sheet
    is as it was; when the screenshot had been taken, its file stays on
    the disk, neither uploaded nor removed. *)
Theorem close_exception_leaves_rows_uncounted (SCREENSHOTS_DIR : pystr) (start_row : Z)
    (total_urls i : nat) (sleep_fails : option exn) (url : pystr) (env : row_env)
    (e : exn) (rest : list (pystr * row_env * option exn)) (w : world) (name : pystr) :
  invalid_url url = false ->
  marked_processed w env (start_row + Z.of_nat i) = false ->
  generate_screenshot_filename env = inr name ->
  close_called (capture env) = true ->
  let r := Unguarded.process_rows SCREENSHOTS_DIR start_row total_urls sleep_fails i
             ((url, env, Some e) :: rest) w in
  r.1 = inl e
  /\ tally r.2 = tally w
  /\ sheet r.2 = sheet w
  /\ (captured (capture env) = true ->
      OsPath.join SCREENSHOTS_DIR name ∈ files r.2).
Proof.
  intros Hu Hm Hn Hc. cbv zeta. cbn [Unguarded.process_rows]. unfold mbind, M_bind.
  pose proof (unguarded_process_row_close SCREENSHOTS_DIR start_row total_urls sleep_fails
                i url env w name e Hu Hm Hn Hc) as (Hr & Ht & Hs & Hf).
  cbv zeta in Hr, Ht, Hs, Hf.
  destruct (Unguarded.process_row _ _ _ _ i url env (Some e) w) as [r1 w1].
  cbn [fst snd] in *. subst r1. cbn [fst snd]. split_and!; try done.
  intros Hcap. rewrite (Hf Hcap). apply elem_of_union_l. by apply elem_of_singleton.
Qed.

Lemma close_exception_leaves_rows_uncounted_witness :
  let r := Unguarded.process_rows (lit "screenshots") 2 2 None 0
             [(lit "https://a.example/", Sample.row_with "a.png" Sample.browser_ok,
               Some PlaywrightError);
              (lit "https://b.example/", Sample.row_with "b.png" Sample.browser_ok, None)]
             empty_world in
  r.1 = inl PlaywrightError
  /\ tally r.2 = tally empty_world
  /\ sheet r.2 = sheet empty_world
  /\ (captured (capture (Sample.row_with "a.png" Sample.browser_ok)) = true ->
      OsPath.join (lit "screenshots") (lit "a.png") ∈ files r.2).
Proof.
  apply (close_exception_leaves_rows_uncounted (lit "screenshots") 2 2 0 None
           (lit "https://a.example/") (Sample.row_with "a.png" Sample.browser_ok)
           PlaywrightError
           [(lit "https://b.example/", Sample.row_with "b.png" Sample.browser_ok, None)]
           empty_world (lit "a.png")); reflexivity.
Defined.

(** An exception of [time.sleep] (a negative delay, one that is not a
    number) leaves the loop after the first row that reaches the capture
    and is not the last: that row is counted, as a success or as failed,
    and no row after it is processed or counted. *)
Theorem sleep_exception_ends_loop (SCREENSHOTS_DIR : pystr) (start_row : Z)
    (total_urls i : nat) (url : pystr) (env : row_env) (e : exn)
    (rest : list (pystr * row_env * option exn)) (w : world) (name : pystr) :
  invalid_url url = false ->
  marked_processed w env (start_row + Z.of_nat i) = false ->
  generate_screenshot_filename env = inr name ->
  (S i < total_urls)%nat ->
  let r := Unguarded.process_rows SCREENSHOTS_DIR start_row total_urls (Some e) i
             ((url, env, None) :: rest) w in
  r.1 = inl e
  /\ tally r.2 = (if captured (capture env) && recorded env
                  then incr_successful (tally w) else incr_failed (tally w))
  /\ (successful_screenshots (tally r.2) + skipped_urls (tally r.2)
      + failed_screenshots (tally r.2)
      = 1 + (successful_screenshots (tally w) + skipped_urls (tally w)
             + failed_screenshots (tally w)))%nat.
Proof.
  intros Hu Hm Hn Hlt. cbv zeta. cbn [Unguarded.process_rows]. unfold mbind, M_bind.
  apply Nat.ltb_lt in Hlt.
  pose proof (unguarded_process_row_sleep SCREENSHOTS_DIR start_row total_urls
                i url env w name e Hu Hm Hn Hlt) as (Hr & Ht).
  cbv zeta in Hr, Ht.
  destruct (Unguarded.process_row _ _ _ _ i url env None w) as [r1 w1].
  cbn [fst snd] in *. subst r1. cbn [fst snd]. split_and!; [done | done |].
  rewrite Ht. destruct (captured (capture env) && recorded env); cbn; lia.
Qed.

Lemma sleep_exception_ends_loop_witness :
  let r := Unguarded.process_rows (lit "screenshots") 2 3 (Some ValueError) 0
             [(lit "https://a.example/", Sample.row_with "a.png" Sample.browser_ok, None);
              (lit "https://b.example/", Sample.row_with "b.png" Sample.browser_ok, None);
              (lit "http://c.example/", Sample.row_with "c.png" Sample.browser_timeout,
               None)] empty_world in
  r.1 = inl ValueError
  /\ tally r.2 = (if captured (capture (Sample.row_with "a.png" Sample.browser_ok))
                     && recorded (Sample.row_with "a.png" Sample.browser_ok)
                  then incr_successful (tally empty_world)
                  else incr_failed (tally empty_world))
  /\ (successful_screenshots (tally r.2) + skipped_urls (tally r.2)
      + failed_screenshots (tally r.2)
      = 1 + (successful_screenshots (tally empty_world) + skipped_urls (tally empty_world)
             + failed_screenshots (tally empty_world)))%nat.
Proof.
  apply (sleep_exception_ends_loop (lit "screenshots") 2 3 0 (lit "https://a.example/")
           (Sample.row_with "a.png" Sample.browser_ok) ValueError
           [(lit "https://b.example/", Sample.row_with "b.png" Sample.browser_ok, None);
            (lit "http://c.example/", Sample.row_with "c.png" Sample.browser_timeout,
             None)] empty_world (lit "a.png")); try reflexivity.
  lia.
Defined.
